(** * Quo Vadis session hub: a shallow embedding of [backend/hub.go]

    The hub is the event loop of the server.  It owns three Go maps
    (users, challenges, games), consumes connection events, client
    messages and ticker ticks, and produces messages addressed to users.
    This file embeds the data types of [types.go] and the handlers of
    [hub.go] as functions on an explicit hub state, with the messages sent
    and the goroutines started as their second result, and proves
    properties of round resolution, the win condition, bid validation,
    challenges, resignation and the removal of finished matches. *)

From stdpp Require Import gmap strings list fin_maps.

Local Open Scope string_scope.
Local Open Scope list_scope.
Local Open Scope Z_scope.

(** ** Go's [int]

    The server is built for linux on a 64-bit target, where [int] is a
    64-bit two's complement integer.  An [int] is a [Z] in
    [[int_min, int_max]]; subtraction and increment wrap around. *)

Definition int_min : Z := - 2 ^ 63.
Definition int_max : Z := 2 ^ 63 - 1.

Definition is_int (z : Z) : Prop := int_min ≤ z ≤ int_max.

Definition wrap (z : Z) : Z := (z + 2 ^ 63) mod 2 ^ 64 - 2 ^ 63.

Definition int_sub (a b : Z) : Z := wrap (a - b).
Definition int_inc (a : Z) : Z := wrap (a + 1).

(** ** Constants of [types.go] *)

Definition MAX_STEPS : Z := 3.
Definition INITIAL_BUDGET : Z := 20.
Definition CHALLENGE_EXPIRY : Z := 60.

(** [time.Time] values are nanoseconds on a common clock; [time_Second] is
    Go's [time.Second]. *)
Definition time_Second : Z := 1000000000.

(** ** Data types of [types.go] *)

Module UserInfo.
Record t := mk { UserID : string; Username : string; InGame : bool }.
End UserInfo.

Module Message.
Record t := mk {
  Type_ : string;
  UserID : string;
  Username : string;
  TargetUserID : string;
  ChallengeID : string;
  GameID : string;
  FromUserID : string;
  FromUsername : string;
  OpponentID : string;
  OpponentUsername : string;
  YourPlayer : Z;
  Bid : Z;
  Users : list UserInfo.t;
  Turn : Z;
  P1Balance : Z;
  P2Balance : Z;
  P1Bid : Z;
  P2Bid : Z;
  P1Position : Z;
  P2Position : Z;
  Winner : Z;
  Reason : string;
  Result : string
}.
End Message.

(** A [*User] is represented by the [ID] of the object it points to: each
    [User] is allocated once, by [handleConnect], under a fresh uuid, and
    its [ID] is never written again.  The objects themselves live in the
    hub's [objs] store (below), so that a write through one pointer is seen
    through every other.  The [Client] field is the connection the user
    was created for; messages sent to a user are recorded with the user's
    pointer as address. *)
Module User.
Record t := mk {
  ID : string;
  Username : string;
  InGame : bool;
  GameID : string
}.

Definition zero : t := mk "" "" false "".

Definition set_InGame (b : bool) (gid : string) (u : t) : t :=
  mk (ID u) (Username u) b gid.

Definition set_InGame_only (b : bool) (u : t) : t :=
  mk (ID u) (Username u) b (GameID u).
End User.

Module Challenge.
Record t := mk {
  ID : string;
  FromUser : string;
  ToUser : string;
  Timestamp : Z
}.
End Challenge.

Module RoundHistory.
Record t := mk {
  Turn : Z;
  P1Bid : Z;
  P2Bid : Z;
  P1NewPos : Z;
  P2NewPos : Z;
  Result : string
}.
End RoundHistory.

Module Game.
Record t := mk {
  ID : string;
  Player1 : string;
  Player2 : string;
  Turn : Z;
  CurrentRound : Z;
  Status : string;
  Player1Pos : Z;
  Player2Pos : Z;
  Player1Balance : Z;
  Player2Balance : Z;
  Player1Bid : option Z;
  Player2Bid : option Z;
  GameOver : bool;
  Winner : Z;
  History : list RoundHistory.t;
  StartTime : Z;
  EndTime : Z
}.

Definition set_Player1Bid (b : option Z) (g : t) : t :=
  mk (ID g) (Player1 g) (Player2 g) (Turn g) (CurrentRound g) (Status g)
     (Player1Pos g) (Player2Pos g) (Player1Balance g) (Player2Balance g)
     b (Player2Bid g) (GameOver g) (Winner g) (History g) (StartTime g) (EndTime g).

Definition set_Player2Bid (b : option Z) (g : t) : t :=
  mk (ID g) (Player1 g) (Player2 g) (Turn g) (CurrentRound g) (Status g)
     (Player1Pos g) (Player2Pos g) (Player1Balance g) (Player2Balance g)
     (Player1Bid g) b (GameOver g) (Winner g) (History g) (StartTime g) (EndTime g).

Definition set_Status (st : string) (g : t) : t :=
  mk (ID g) (Player1 g) (Player2 g) (Turn g) (CurrentRound g) st
     (Player1Pos g) (Player2Pos g) (Player1Balance g) (Player2Balance g)
     (Player1Bid g) (Player2Bid g) (GameOver g) (Winner g) (History g)
     (StartTime g) (EndTime g).

(** Deduction, movement and the history append of a round. *)
Definition set_round (bal1 bal2 pos1 pos2 : Z) (entry : RoundHistory.t) (g : t) : t :=
  mk (ID g) (Player1 g) (Player2 g) (Turn g) (CurrentRound g) (Status g)
     pos1 pos2 bal1 bal2
     (Player1Bid g) (Player2Bid g) (GameOver g) (Winner g) (History g ++ [entry])
     (StartTime g) (EndTime g).

(** [GameOver = true; Winner = winner; EndTime = now; Status = "GAME_OVER"]. *)
Definition set_over (winner tnow : Z) (g : t) : t :=
  mk (ID g) (Player1 g) (Player2 g) (Turn g) (CurrentRound g) "GAME_OVER"
     (Player1Pos g) (Player2Pos g) (Player1Balance g) (Player2Balance g)
     (Player1Bid g) (Player2Bid g) true winner (History g) (StartTime g) tnow.

(** [CurrentRound++; Player1Bid = nil; Player2Bid = nil;
    Status = "WAITING_FOR_BIDS"]. *)
Definition set_next (round : Z) (g : t) : t :=
  mk (ID g) (Player1 g) (Player2 g) (Turn g) round "WAITING_FOR_BIDS"
     (Player1Pos g) (Player2Pos g) (Player1Balance g) (Player2Balance g)
     None None (GameOver g) (Winner g) (History g) (StartTime g) (EndTime g).
End Game.

(** ** The hub

    [users], [challenges] and [games] are the three maps of [Hub].
    [h.users] maps an ID to the [User] object with that ID, so the model
    keeps its key set; [objs] is the heap of [User] objects, which a
    [delete(h.users, id)] does not touch.  A [*Game] or [*Challenge] is
    only ever reached through its map, so the maps hold the objects. *)
Record Hub := mkHub {
  objs : gmap string User.t;
  users : gset string;
  challenges : gmap string Challenge.t;
  games : gmap string Game.t
}.

Definition newHub : Hub := mkHub ∅ ∅ ∅ ∅.

(** What a handler does besides updating the hub: it sends messages and
    starts goroutines.  [SleepThenDelete d id] is
    [go func() { time.Sleep(d); delete(h.games, id) }()]. *)
Inductive Goroutine :=
| SleepThenDelete (d : Z) (gameID : string).

Inductive Effect :=
| Send (to : string) (msg : Message.t)
| Spawn (g : Goroutine).

(** The values a handler draws from its environment: the result of
    [uuid.New().String()] and of [time.Now()]. *)
Record Env := mkEnv { uuid : string; now : Z }.

(** Dereferencing a [*User].  Every pointer the hub holds was stored by
    [handleConnect], so the object is there. *)
Definition deref (h : Hub) (p : string) : User.t :=
  default User.zero (objs h !! p).

(** ** Outgoing messages

    One constructor function per message literal of [hub.go]; the fields
    not named in the literal keep their zero value. *)

Definition msg_welcome (userID username : string) : Message.t :=
  Message.mk "welcome" userID username "" "" "" "" "" "" "" 0 0 [] 0 0 0 0 0 0 0 0 "" "".

Definition msg_users_update (us : list UserInfo.t) : Message.t :=
  Message.mk "users_update" "" "" "" "" "" "" "" "" "" 0 0 us 0 0 0 0 0 0 0 0 "" "".

Definition msg_opponent_disconnected (gameID : string) : Message.t :=
  Message.mk "opponent_disconnected" "" "" "" "" gameID "" "" "" "" 0 0 [] 0 0 0 0 0 0 0 0 "" "".

Definition msg_challenge_expired (challengeID username : string) : Message.t :=
  Message.mk "challenge_expired" "" username "" challengeID "" "" "" "" "" 0 0 [] 0 0 0 0 0 0 0 0 "" "".

Definition msg_challenge_received (challengeID fromID fromName : string) : Message.t :=
  Message.mk "challenge_received" "" "" "" challengeID "" fromID fromName "" "" 0 0 [] 0 0 0 0 0 0 0 0 "" "".

Definition msg_challenge_declined (challengeID : string) : Message.t :=
  Message.mk "challenge_declined" "" "" "" challengeID "" "" "" "" "" 0 0 [] 0 0 0 0 0 0 0 0 "" "".

Definition msg_game_start (gameID oppID oppName : string) (yourPlayer : Z) : Message.t :=
  Message.mk "game_start" "" "" "" "" gameID "" "" oppID oppName yourPlayer 0 [] 0 0 0 0 0 0 0 0 "" "".

Definition msg_waiting_for_bids (game : Game.t) : Message.t :=
  Message.mk "waiting_for_bids" "" "" "" "" (Game.ID game) "" "" "" "" 0 0 []
    (Game.CurrentRound game) (Game.Player1Balance game) (Game.Player2Balance game) 0 0
    (Game.Player1Pos game) (Game.Player2Pos game) 0 "" "".

Definition msg_round_result (gameID : string) (turn p1Bid p2Bid p1Pos p2Pos p1Bal p2Bal : Z)
    (result : string) : Message.t :=
  Message.mk "round_result" "" "" "" "" gameID "" "" "" "" 0 0 []
    turn p1Bal p2Bal p1Bid p2Bid p1Pos p2Pos 0 "" result.

Definition msg_game_end (gameID : string) (winner : Z) (reason : string) : Message.t :=
  Message.mk "game_end" "" "" "" "" gameID "" "" "" "" 0 0 [] 0 0 0 0 0 0 0 winner reason "".

Definition msg_rematch_received (gameID fromID : string) : Message.t :=
  Message.mk "rematch_received" "" "" "" "" gameID fromID "" "" "" 0 0 [] 0 0 0 0 0 0 0 0 "" "".

(** [sendError] puts the text into the [Username] field. *)
Definition msg_error (errorMsg : string) : Message.t :=
  Message.mk "error" "" errorMsg "" "" "" "" "" "" "" 0 0 [] 0 0 0 0 0 0 0 0 "" "".

(** ** Utility methods *)

Definition sendToUser (user : string) (msg : Message.t) : list Effect :=
  [Send user msg].

Definition sendError (user : string) (errorMsg : string) : list Effect :=
  sendToUser user (msg_error errorMsg).

Definition userInfo (u : User.t) : UserInfo.t :=
  UserInfo.mk (User.ID u) (User.Username u) (User.InGame u).

(** Go leaves the iteration order of a map unspecified; the model ranges
    over [h.users] in the order of [elements]. *)
Definition broadcastUserList (h : Hub) : list Effect :=
  let ids := elements (users h) in
  let msg := msg_users_update (map (λ p, userInfo (deref h p)) ids) in
  flat_map (λ p, sendToUser p msg) ids.

(** ** Connection handlers *)

Definition handleConnect (h : Hub) (userID username : string) : Hub * list Effect :=
  let user := User.mk userID username false "" in
  let h' := mkHub (<[userID := user]> (objs h)) ({[userID]} ∪ users h)
                  (challenges h) (games h) in
  (h', sendToUser userID (msg_welcome userID username) ++ broadcastUserList h').

Definition involves (user : string) (g : Game.t) : Prop :=
  Game.Player1 g = user ∨ Game.Player2 g = user.

Definition opponentOf (user : string) (g : Game.t) : string :=
  if decide (Game.Player1 g = user) then Game.Player2 g else Game.Player1 g.

Definition party (user : string) (c : Challenge.t) : Prop :=
  Challenge.FromUser c = user ∨ Challenge.ToUser c = user.

Definition handleDisconnect (h : Hub) (user : string) : Hub * list Effect :=
  (* Remove user from active games *)
  let mine := map_to_list (filter (λ kv, involves user kv.2) (games h)) in
  let running := filter (λ kv : string * Game.t, Game.GameOver kv.2 = false) mine in
  let objs1 :=
    foldr (λ kv o, alter (User.set_InGame_only false) (opponentOf user kv.2) o)
          (objs h) running in
  let e1 :=
    flat_map (λ kv, sendToUser (opponentOf user kv.2) (msg_opponent_disconnected kv.1))
             running in
  let games1 := filter (λ kv, ¬ involves user kv.2) (games h) in
  (* Remove pending challenges *)
  let gone := map_to_list (filter (λ kv, party user kv.2) (challenges h)) in
  let e2 :=
    flat_map (λ kv : string * Challenge.t,
                if decide (Challenge.FromUser kv.2 = user)
                then sendToUser (Challenge.ToUser kv.2)
                       (msg_challenge_expired kv.1
                          (User.Username (deref h (Challenge.ToUser kv.2))))
                else [])
             gone in
  let challenges1 := filter (λ kv, ¬ party user kv.2) (challenges h) in
  let h1 := mkHub objs1 (users h ∖ {[user]}) challenges1 games1 in
  (h1, e1 ++ e2 ++ broadcastUserList h1).

(** ** Challenge handlers *)

Definition samePair (from to : string) (c : Challenge.t) : Prop :=
  Challenge.FromUser c = from ∧ Challenge.ToUser c = to.

Definition handleChallenge (h : Hub) (from : string) (msg : Message.t) (env : Env)
    : Hub * list Effect :=
  let to := Message.TargetUserID msg in
  if decide (to ∈ users h) then
    if User.InGame (deref h to) then
      (h, sendError from "User is already in a game")
    else if decide (map_Exists (λ _ c, samePair from to c) (challenges h)) then
      (h, sendError from "You already have a pending challenge to this user")
    else
      let challengeID := uuid env in
      let challenge := Challenge.mk challengeID from to (now env) in
      let h' := mkHub (objs h) (users h) (<[challengeID := challenge]> (challenges h))
                      (games h) in
      (h', sendToUser to
             (msg_challenge_received challengeID from (User.Username (deref h from))))
  else (h, []).

Definition sendWaitingForBids (game : Game.t) : list Effect :=
  let msg := msg_waiting_for_bids game in
  sendToUser (Game.Player1 game) msg ++ sendToUser (Game.Player2 game) msg.

Definition handleAcceptChallenge (h : Hub) (user : string) (msg : Message.t) (env : Env)
    : Hub * list Effect :=
  match challenges h !! Message.ChallengeID msg with
  | None => (h, [])
  | Some challenge =>
    let from := Challenge.FromUser challenge in
    let to := Challenge.ToUser challenge in
    if decide (to = user) then
      (* Create new game *)
      let gameID := uuid env in
      let game :=
        Game.mk gameID from to 1 1 "WAITING_FOR_BIDS" 0 0 INITIAL_BUDGET INITIAL_BUDGET
                None None false 0 [] (now env) 0 in
      (* Mark users as in game *)
      let objs' :=
        alter (User.set_InGame true gameID) to
          (alter (User.set_InGame true gameID) from (objs h)) in
      let p1Msg :=
        msg_game_start gameID (User.ID (deref h to)) (User.Username (deref h to)) 1 in
      let p2Msg :=
        msg_game_start gameID (User.ID (deref h from)) (User.Username (deref h from)) 2 in
      let h' := mkHub objs' (users h) (delete (Message.ChallengeID msg) (challenges h))
                      (<[gameID := game]> (games h)) in
      (h', sendToUser from p1Msg ++ sendToUser to p2Msg ++ sendWaitingForBids game
             ++ broadcastUserList h')
    else (h, [])
  end.

Definition handleDeclineChallenge (h : Hub) (user : string) (msg : Message.t)
    : Hub * list Effect :=
  match challenges h !! Message.ChallengeID msg with
  | None => (h, [])
  | Some challenge =>
    if decide (Challenge.ToUser challenge = user) then
      (mkHub (objs h) (users h) (delete (Message.ChallengeID msg) (challenges h)) (games h),
       sendToUser (Challenge.FromUser challenge)
         (msg_challenge_declined (Message.ChallengeID msg)))
    else (h, [])
  end.

Definition expired (tnow : Z) (c : Challenge.t) : Prop :=
  tnow - Challenge.Timestamp c > CHALLENGE_EXPIRY * time_Second.

#[local] Instance expired_dec tnow c : Decision (expired tnow c) := Z_gt_dec _ _.

Definition checkExpiredChallenges (h : Hub) (tnow : Z) : Hub * list Effect :=
  let old := map_to_list (filter (λ kv, expired tnow kv.2) (challenges h)) in
  let es :=
    flat_map (λ kv : string * Challenge.t,
                sendToUser (Challenge.FromUser kv.2)
                  (msg_challenge_expired kv.1
                     (User.Username (deref h (Challenge.ToUser kv.2)))))
             old in
  (mkHub (objs h) (users h) (filter (λ kv, ¬ expired tnow kv.2) (challenges h)) (games h),
   es).

(** ** Game logic *)

Definition checkWinCondition (game : Game.t) : Z * string :=
  (* Check if either player reached MAX_STEPS *)
  if Game.Player1Pos game >=? MAX_STEPS then (1, "Reached final step")
  else if Game.Player2Pos game >=? MAX_STEPS then (2, "Reached final step")
  (* Check for bankruptcy stalemate *)
  else if (Game.Player1Balance game =? 0) && (Game.Player2Balance game =? 0) then
    if Game.Player1Pos game >? Game.Player2Pos game then
      (1, "Bankruptcy stalemate - higher position wins")
    else if Game.Player2Pos game >? Game.Player1Pos game then
      (2, "Bankruptcy stalemate - higher position wins")
    else (3, "Bankruptcy stalemate - draw")
  (* Check if both players are at position 0 with 0 balance (edge case) *)
  else if (Game.Player1Pos game =? 0) && (Game.Player2Pos game =? 0)
          && (Game.Player1Balance game =? 0) && (Game.Player2Balance game =? 0) then
    (3, "No moves possible - draw")
  else (0, "").

(** [resolveRound(game)]: [gp] is the key under which [h.games] holds the
    object [game] points to, and [game] its current contents.  The only
    caller has checked that both bids are set; the first line of the Go
    function dereferences them. *)
Definition resolveRound (h : Hub) (gp : string) (game : Game.t) (tnow : Z)
    : Hub * list Effect :=
  match Game.Player1Bid game, Game.Player2Bid game with
  | Some p1Bid, Some p2Bid =>
    (* Deduction (both lose their bid regardless of outcome) *)
    let bal1 := int_sub (Game.Player1Balance game) p1Bid in
    let bal2 := int_sub (Game.Player2Balance game) p2Bid in
    (* Movement determination *)
    let '(p1NewPos, p2NewPos, result) :=
      if p1Bid >? p2Bid then
        (int_inc (Game.Player1Pos game), Game.Player2Pos game, "P1_WINS_ROUND")
      else if p2Bid >? p1Bid then
        (Game.Player1Pos game, int_inc (Game.Player2Pos game), "P2_WINS_ROUND")
      else (Game.Player1Pos game, Game.Player2Pos game, "DRAW") in
    (* Record history *)
    let history :=
      RoundHistory.mk (Game.CurrentRound game) p1Bid p2Bid p1NewPos p2NewPos result in
    let game1 := Game.set_round bal1 bal2 p1NewPos p2NewPos history game in
    (* Send round result to both players *)
    let resultMsg :=
      msg_round_result (Game.ID game1) (Game.CurrentRound game1) p1Bid p2Bid
        p1NewPos p2NewPos bal1 bal2 result in
    let e1 := sendToUser (Game.Player1 game1) resultMsg
              ++ sendToUser (Game.Player2 game1) resultMsg in
    (* Check win condition *)
    let '(winner, reason) := checkWinCondition game1 in
    if winner >? 0 then
      let game2 := Game.set_over winner tnow game1 in
      let endMsg := msg_game_end (Game.ID game2) winner reason in
      (* Mark players as not in game *)
      let objs' :=
        alter (User.set_InGame false "") (Game.Player2 game2)
          (alter (User.set_InGame false "") (Game.Player1 game2) (objs h)) in
      let h' := mkHub objs' (users h) (challenges h) (<[gp := game2]> (games h)) in
      (h', e1 ++ sendToUser (Game.Player1 game2) endMsg
              ++ sendToUser (Game.Player2 game2) endMsg
              ++ broadcastUserList h'
              (* Remove game after a delay *)
              ++ [Spawn (SleepThenDelete (10 * time_Second) (Game.ID game2))])
    else
      (* Continue to next round *)
      let game2 := Game.set_next (int_inc (Game.CurrentRound game1)) game1 in
      let h' := mkHub (objs h) (users h) (challenges h) (<[gp := game2]> (games h)) in
      (h', e1 ++ sendWaitingForBids game2)
  | _, _ => (h, [])
  end.

Definition handleSubmitBid (h : Hub) (user : string) (msg : Message.t) (env : Env)
    : Hub * list Effect :=
  match games h !! Message.GameID msg with
  | None => (h, [])
  | Some game =>
    let submit (playerNum : Z) : Hub * list Effect :=
      (* Validate bid *)
      if Message.Bid msg <? 0 then (h, sendError user "Bid must be non-negative")
      else
        (* Get current balance *)
        let balance :=
          if playerNum =? 1 then Game.Player1Balance game
          else Game.Player2Balance game in
        if Message.Bid msg >? balance then (h, sendError user "Bid exceeds your balance")
        else
          (* Store bid *)
          let game1 :=
            if playerNum =? 1 then Game.set_Player1Bid (Some (Message.Bid msg)) game
            else Game.set_Player2Bid (Some (Message.Bid msg)) game in
          (* Check if both bids are submitted *)
          match Game.Player1Bid game1, Game.Player2Bid game1 with
          | Some _, Some _ =>
            resolveRound h (Message.GameID msg) (Game.set_Status "RESOLVING" game1) (now env)
          | _, _ =>
            (mkHub (objs h) (users h) (challenges h)
                   (<[Message.GameID msg := game1]> (games h)), [])
          end in
    (* Determine player number *)
    if decide (Game.Player1 game = user) then submit 1
    else if decide (Game.Player2 game = user) then submit 2
    else (h, [])
  end.

Definition handleRematch (h : Hub) (user : string) (msg : Message.t) : Hub * list Effect :=
  match games h !! Message.GameID msg with
  | None => (h, [])
  | Some game =>
    let rematchMsg := msg_rematch_received (Message.GameID msg) user in
    if decide (Game.Player1 game = user) then (h, sendToUser (Game.Player2 game) rematchMsg)
    else if decide (Game.Player2 game = user) then
      (h, sendToUser (Game.Player1 game) rematchMsg)
    else (h, [])
  end.

Definition handleResign (h : Hub) (user : string) (msg : Message.t) (env : Env)
    : Hub * list Effect :=
  match games h !! Message.GameID msg with
  | None => (h, [])
  | Some game =>
    if Game.GameOver game then (h, [])
    else
      let finish (opponent : string) (winner : Z) : Hub * list Effect :=
        (* End game with opponent as winner *)
        let game1 := Game.set_over winner (now env) game in
        let endMsg := msg_game_end (Game.ID game1) winner "Opponent resigned" in
        (* Mark players as not in game *)
        let objs' :=
          alter (User.set_InGame false "") (Game.Player2 game1)
            (alter (User.set_InGame false "") (Game.Player1 game1) (objs h)) in
        let h' := mkHub objs' (users h) (challenges h)
                        (<[Message.GameID msg := game1]> (games h)) in
        (h', sendToUser opponent endMsg ++ sendToUser user endMsg
               ++ broadcastUserList h'
               (* Remove game after a delay *)
               ++ [Spawn (SleepThenDelete (10 * time_Second) (Game.ID game1))]) in
      if decide (Game.Player1 game = user) then finish (Game.Player2 game) 2
      else if decide (Game.Player2 game = user) then finish (Game.Player1 game) 1
      else (h, [])
  end.

Definition handleClientMessage (h : Hub) (user : string) (msg : Message.t) (env : Env)
    : Hub * list Effect :=
  let ty := Message.Type_ msg in
  if String.eqb ty "challenge" then handleChallenge h user msg env
  else if String.eqb ty "accept_challenge" then handleAcceptChallenge h user msg env
  else if String.eqb ty "decline_challenge" then handleDeclineChallenge h user msg
  else if String.eqb ty "submit_bid" then handleSubmitBid h user msg env
  else if String.eqb ty "rematch" then handleRematch h user msg
  else if String.eqb ty "resign" then handleResign h user msg env
  else (h, []).

(** ** The event loop

    [Hub.run] selects over four channels.  An [Event] is one value
    received there, together with what the handler will draw from its
    environment: [Register] carries the uuid and the name that
    [handleConnect] generates for the new client, a client message the
    uuid and the clock reading its handler may use, a tick the clock
    reading.  A client is identified with the user created for it, so a
    client is in [h.clients] exactly when its user is in [h.users]. *)
Inductive Event :=
| Register (userID username : string)
| Unregister (user : string)
| ClientMessage (user : string) (msg : Message.t) (env : Env)
| Tick (tnow : Z).

Definition hubStep (h : Hub) (ev : Event) : Hub * list Effect :=
  match ev with
  | Register userID username => handleConnect h userID username
  | Unregister user =>
    if decide (user ∈ users h) then handleDisconnect h user else (h, [])
  | ClientMessage user msg env => handleClientMessage h user msg env
  | Tick tnow => checkExpiredChallenges h tnow
  end.

(** Events the loop can receive in state [h]: uuids are fresh, and a
    message comes from a client for which [handleConnect] has run (its
    messages may still be queued when the client has unregistered, so the
    user need not be in [h.users] any more). *)
Definition enabled (h : Hub) (ev : Event) : Prop :=
  match ev with
  | Register userID _ => objs h !! userID = None
  | Unregister _ => True
  | ClientMessage user _ env =>
    is_Some (objs h !! user)
    ∧ challenges h !! uuid env = None ∧ games h !! uuid env = None
  | Tick _ => True
  end.

#[local] Instance enabled_dec h ev : Decision (enabled h ev).
Proof. destruct ev; simpl; apply _. Defined.

(** The goroutines started by a handler run beside the loop.  The body of
    [SleepThenDelete] is [delete(h.games, id)], executed when it wakes. *)
Definition runGoroutine (g : Goroutine) (h : Hub) : Hub :=
  match g with
  | SleepThenDelete _ gameID =>
    mkHub (objs h) (users h) (challenges h) (delete gameID (games h))
  end.

Definition spawned (es : list Effect) : list Goroutine :=
  omap (λ e, match e with Spawn g => Some g | Send _ _ => None end) es.

Definition sent (es : list Effect) : list (string * Message.t) :=
  omap (λ e, match e with Send to m => Some (to, m) | Spawn _ => None end) es.

(** The server: the hub and the goroutines that are asleep. *)
Record Sys := mkSys { hub : Hub; pending : list Goroutine }.

Definition newSys : Sys := mkSys newHub [].

Definition sysStep (s : Sys) (ev : Event) : Sys :=
  let r := hubStep (hub s) ev in
  mkSys r.1 (pending s ++ spawned r.2).

Inductive step : Sys → Sys → Prop :=
| step_event s ev :
    enabled (hub s) ev → step s (sysStep s ev)
| step_wake s g before after :
    pending s = before ++ g :: after →
    step s (mkSys (runGoroutine g (hub s)) (before ++ after)).

Inductive reachable : Sys → Prop :=
| reach_init : reachable newSys
| reach_step s s' : reachable s → step s s' → reachable s'.

(** Running the loop on a list of events, no goroutine waking in between. *)
Definition run (s : Sys) (evs : list Event) : Sys := foldl sysStep s evs.

(** Client messages, as the client code builds them. *)
Definition challengeMsg (target : string) : Message.t :=
  Message.mk "challenge" "" "" target "" "" "" "" "" "" 0 0 [] 0 0 0 0 0 0 0 0 "" "".
Definition acceptMsg (challengeID : string) : Message.t :=
  Message.mk "accept_challenge" "" "" "" challengeID "" "" "" "" "" 0 0 [] 0 0 0 0 0 0 0 0 "" "".
Definition bidMsg (gameID : string) (bid : Z) : Message.t :=
  Message.mk "submit_bid" "" "" "" "" gameID "" "" "" "" 0 bid [] 0 0 0 0 0 0 0 0 "" "".

(** * Vocabulary of the statements

    Predicates the theorems are stated with, and the concrete games, hubs
    and runs they are evaluated on. *)

(** The result tag of a round with bids [b1] and [b2]. *)
Definition roundTag (b1 b2 : Z) : string :=
  if b1 >? b2 then "P1_WINS_ROUND" else if b2 >? b1 then "P2_WINS_ROUND" else "DRAW".

(** The [int] fields of a game that a round updates are machine integers,
    and neither position sits at the largest one. *)
Definition roundInts (g : Game.t) : Prop :=
  Game.Player1Balance g ≤ int_max ∧ Game.Player2Balance g ≤ int_max
  ∧ int_min ≤ Game.Player1Pos g < int_max
  ∧ int_min ≤ Game.Player2Pos g < int_max.

(** A match as [handleAcceptChallenge] creates it, and the same match with
    player one's bid 5 and player two's bid 3 stored. *)
Definition freshGame : Game.t :=
  Game.mk "g1" "A" "B" 1 1 "WAITING_FOR_BIDS" 0 0 INITIAL_BUDGET INITIAL_BUDGET
          None None false 0 [] 0 0.

Definition bidGame (b1 b2 : Z) (g : Game.t) : Game.t :=
  Game.set_Player2Bid (Some b2) (Game.set_Player1Bid (Some b1) g).

(** The game after deduction, movement and the history append, and the
    game [resolveRound] leaves behind. *)
Definition playRound (b1 b2 : Z) (game : Game.t) : Game.t :=
  let p1NewPos :=
    if b1 >? b2 then int_inc (Game.Player1Pos game) else Game.Player1Pos game in
  let p2NewPos :=
    if b1 >? b2 then Game.Player2Pos game
    else if b2 >? b1 then int_inc (Game.Player2Pos game) else Game.Player2Pos game in
  Game.set_round (int_sub (Game.Player1Balance game) b1)
    (int_sub (Game.Player2Balance game) b2) p1NewPos p2NewPos
    (RoundHistory.mk (Game.CurrentRound game) b1 b2 p1NewPos p2NewPos (roundTag b1 b2))
    game.

Definition resolved (b1 b2 tnow : Z) (game : Game.t) : Game.t :=
  let game1 := playRound b1 b2 game in
  let winner := (checkWinCondition game1).1 in
  if winner >? 0 then Game.set_over winner tnow game1
  else Game.set_next (int_inc (Game.CurrentRound game1)) game1.

(** Player one at position 2 with balance 5 bids 5 against 3 from player
    two, whose balance is 3: the round takes player one to [MAX_STEPS] and
    both balances to zero. *)
Definition lastStepGame : Game.t :=
  Game.mk "g1" "A" "B" 1 4 "RESOLVING" 2 0 5 3 (Some 5) (Some 3) false 0 [] 0 0.

(** The balance [handleSubmitBid] checks a bid of [user] against, and the
    game with that bid stored: player one's side if [user] is player one,
    else player two's. *)
Definition balanceOf (user : string) (game : Game.t) : Z :=
  if decide (Game.Player1 game = user) then Game.Player1Balance game
  else Game.Player2Balance game.

Definition storeBid (user : string) (bid : Z) (game : Game.t) : Game.t :=
  if decide (Game.Player1 game = user) then Game.set_Player1Bid (Some bid) game
  else Game.set_Player2Bid (Some bid) game.

Definition withGame (h : Hub) (gp : string) (game : Game.t) : Hub :=
  mkHub (objs h) (users h) (challenges h) (<[gp := game]> (games h)).

(** A hub that holds one match, just created, between users A and B. *)
Definition oneGameHub : Hub :=
  mkHub (<["B" := User.mk "B" "Bob" true "g1"]>
           (<["A" := User.mk "A" "Alice" true "g1"]> ∅))
        ({["A"]} ∪ {["B"]}) ∅ (<["g1" := freshGame]> ∅).

(** Every event of the list is one the loop can receive when its turn
    comes. *)
Fixpoint runOK (s : Sys) (evs : list Event) : Prop :=
  match evs with
  | [] => True
  | ev :: evs' => enabled (hub s) ev ∧ runOK (sysStep s ev) evs'
  end.

#[local] Instance runOK_dec s evs : Decision (runOK s evs).
Proof. revert s. induction evs as [|ev evs IH]; intros s; simpl; apply _. Defined.

(** Two users connect, A challenges B and B accepts: match "g1" with A as
    player one and B as player two. *)
Definition lobby : list Event :=
  [ Register "A" "Alice"; Register "B" "Bob";
    ClientMessage "A" (challengeMsg "B") (mkEnv "c1" 10);
    ClientMessage "B" (acceptMsg "c1") (mkEnv "g1" 20) ].

(** Player one (A) and player two (B) submit bids [b1] and [b2] for "g1",
    A first or B first. *)
Definition bidPair (b1 b2 : Z) : list Event :=
  [ ClientMessage "A" (bidMsg "g1" b1) (mkEnv "u" 30);
    ClientMessage "B" (bidMsg "g1" b2) (mkEnv "u" 30) ].

Definition bidPairRev (b1 b2 : Z) : list Event :=
  [ ClientMessage "B" (bidMsg "g1" b2) (mkEnv "u" 30);
    ClientMessage "A" (bidMsg "g1" b1) (mkEnv "u" 30) ].

Definition scenarioC : list Event :=
  lobby ++ bidPair 5 3 ++ bidPair 3 6 ++ bidPair 8 4 ++ bidPair 5 5 ++ bidPair 7 2.

Definition scenarioCRev : list Event :=
  lobby ++ bidPairRev 5 3 ++ bidPairRev 3 6 ++ bidPairRev 8 4 ++ bidPairRev 5 5
        ++ bidPairRev 7 2.

(** The five rounds fed to [resolveRound] directly, the bids written into
    the game without passing through [handleSubmitBid]. *)
Definition resolveDirect (h : Hub) (gp : string) (b1 b2 : Z) : Hub :=
  match games h !! gp with
  | Some g => (resolveRound h gp (bidGame b1 b2 g) 30).1
  | None => h
  end.

Definition scenarioCDirect : Hub :=
  foldl (λ h b, resolveDirect h "g1" b.1 b.2) (hub (run newSys lobby))
        [(5, 3); (3, 6); (8, 4); (5, 5); (7, 2)].

(** The messages a run sends, in order. *)
Definition runSent (s : Sys) (evs : list Event) : list (string * Message.t) :=
  (foldl (λ acc ev, (sysStep acc.1 ev, acc.2 ++ sent (hubStep (hub acc.1) ev).2))
         (s, []) evs).2.

(** The match "g1" after the events [evs]: round 4, not over, no winner,
    positions 2/1, balances 4/7, three rounds played, player one without a
    stored bid, player two's bid 2 waiting, and two errors sent, both to A
    and both "Bid exceeds your balance". *)
Definition stalledInRound4 (evs : list Event) : Prop :=
  ∃ g : Game.t,
    games (hub (run newSys evs)) !! "g1" = Some g
    ∧ Game.Player1Pos g = 2 ∧ Game.Player2Pos g = 1
    ∧ Game.Player1Balance g = 4 ∧ Game.Player2Balance g = 7
    ∧ Game.CurrentRound g = 4 ∧ length (Game.History g) = 3%nat
    ∧ Game.GameOver g = false ∧ Game.Winner g = 0
    ∧ Game.Player1Bid g = None ∧ Game.Player2Bid g = Some 2
    ∧ filter (λ m, Message.Type_ m.2 = "error") (runSent newSys evs)
      = [("A", msg_error "Bid exceeds your balance");
         ("A", msg_error "Bid exceeds your balance")].

(** A wins the first two rounds with 1 against 0 and the third with 16
    against 15, which ends the match at positions 3/0 with balances 2/5.
    Before the removal goroutine wakes, B submits the bid 5. *)
Definition finishedTrace : list Event :=
  lobby ++ bidPair 1 0 ++ bidPair 1 0 ++ bidPair 16 15.

Definition overrunTrace : list Event :=
  finishedTrace ++ [ClientMessage "B" (bidMsg "g1" 5) (mkEnv "u" 40)].

(** A and C both challenge B while B is free; B accepts both. *)
Definition doubleAccept : list Event :=
  [ Register "A" "Alice"; Register "B" "Bob"; Register "C" "Carol";
    ClientMessage "A" (challengeMsg "B") (mkEnv "c1" 10);
    ClientMessage "C" (challengeMsg "B") (mkEnv "c2" 11);
    ClientMessage "B" (acceptMsg "c1") (mkEnv "g1" 20);
    ClientMessage "B" (acceptMsg "c2") (mkEnv "g2" 21) ].

(** The hub of [finishedTrace] just before B's bid 15 ends the match. *)
Definition beforeLastBid : Hub :=
  hub (run newSys (lobby ++ bidPair 1 0 ++ bidPair 1 0
                     ++ [ClientMessage "A" (bidMsg "g1" 16) (mkEnv "u" 30)])).


(** A and B are connected and A has challenged B. *)
Definition challenged : Sys :=
  run newSys [ Register "A" "Alice"; Register "B" "Bob";
               ClientMessage "A" (challengeMsg "B") (mkEnv "c1" 10) ].

(** [h'] still holds a match under every key under which [h] holds one. *)
Definition keepsGames (h h' : Hub) : Prop :=
  ∀ gid : string, is_Some (games h !! gid) → is_Some (games h' !! gid).

(** The bounds of the data model, for a match that is not over: balances
    within [[0, INITIAL_BUDGET]], positions within [[0, MAX_STEPS)], and a
    stored bid within its player's balance. *)
Definition runningOK (g : Game.t) : Prop :=
  Game.GameOver g = false →
  0 ≤ Game.Player1Balance g ≤ INITIAL_BUDGET
  ∧ 0 ≤ Game.Player2Balance g ≤ INITIAL_BUDGET
  ∧ 0 ≤ Game.Player1Pos g < MAX_STEPS
  ∧ 0 ≤ Game.Player2Pos g < MAX_STEPS
  ∧ (∀ b, Game.Player1Bid g = Some b → 0 ≤ b ≤ Game.Player1Balance g)
  ∧ (∀ b, Game.Player2Bid g = Some b → 0 ≤ b ≤ Game.Player2Balance g).

Definition gamesOK (h : Hub) : Prop := map_Forall (λ _ g, runningOK g) (games h).



(** Both players bid their whole budget in round 1: the round is a tie,
    both balances are 0 and the match ends in a draw.  Before the removal
    goroutine wakes, A submits the only bid its balance allows, 0. *)
Definition drawTrace : list Event := lobby ++ bidPair 20 20.

Definition lateBidTrace : list Event :=
  drawTrace ++ [ClientMessage "A" (bidMsg "g1" 0) (mkEnv "u" 40)].

(** ** Vocabulary of the further properties *)

(** The match [handleAcceptChallenge] creates for a challenge. *)
Definition newGame (c : Challenge.t) (env : Env) : Game.t :=
  Game.mk (uuid env) (Challenge.FromUser c) (Challenge.ToUser c) 1 1 "WAITING_FOR_BIDS"
          0 0 INITIAL_BUDGET INITIAL_BUDGET None None false 0 [] (now env) 0.

(** The matches [handleDisconnect] notifies about: those of [user] that
    are not over. *)
Definition runningWith (h : Hub) (user : string) (gid : string) (g : Game.t) : Prop :=
  games h !! gid = Some g ∧ involves user g ∧ Game.GameOver g = false.

(** The six message types the hub handles. *)
Definition knownType (ty : string) : Prop :=
  ty = "challenge" ∨ ty = "accept_challenge" ∨ ty = "decline_challenge"
  ∨ ty = "submit_bid" ∨ ty = "rematch" ∨ ty = "resign".

(** [o'] holds the same user objects as [o], each with the id and the name
    it had: only [InGame] and [GameID] may differ. *)
Definition sameIdentity (o o' : gmap string User.t) : Prop :=
  ∀ p : string,
    option_Forall2 (λ u u', User.ID u' = User.ID u ∧ User.Username u' = User.Username u)
                   (o !! p) (o' !! p).

(** [g'] is a later state of the match [g]: same id, same players in the
    same order, same start time, and the history of [g] is a prefix of the
    history of [g']. *)
Definition evolves (g g' : Game.t) : Prop :=
  Game.ID g' = Game.ID g ∧ Game.Player1 g' = Game.Player1 g
  ∧ Game.Player2 g' = Game.Player2 g ∧ Game.StartTime g' = Game.StartTime g
  ∧ Game.History g `prefix_of` Game.History g'.

(** Every pointer the hub holds leads to an object and every key is the
    id of what is stored under it: live users have objects, an object's
    [ID] is its address, a challenge is stored under its own id with an
    allocated sender and a live recipient, and a match is stored under its
    own id with allocated players. *)
Definition wfHub (h : Hub) : Prop :=
  (∀ p, p ∈ users h → is_Some (objs h !! p))
  ∧ (∀ p u, objs h !! p = Some u → User.ID u = p)
  ∧ (∀ cid c, challenges h !! cid = Some c →
       Challenge.ID c = cid ∧ is_Some (objs h !! Challenge.FromUser c)
       ∧ Challenge.ToUser c ∈ users h)
  ∧ (∀ gid g, games h !! gid = Some g →
       Game.ID g = gid ∧ is_Some (objs h !! Game.Player1 g)
       ∧ is_Some (objs h !! Game.Player2 g)).

(** What the history says each player has paid, and how many rounds carry
    a given result tag. *)
Definition paid1 (l : list RoundHistory.t) : Z :=
  foldr (λ e acc, RoundHistory.P1Bid e + acc) 0 l.

Definition paid2 (l : list RoundHistory.t) : Z :=
  foldr (λ e acc, RoundHistory.P2Bid e + acc) 0 l.

Definition roundsWith (tag : string) (l : list RoundHistory.t) : Z :=
  Z.of_nat (length (filter (λ e, RoundHistory.Result e = tag) l)).

(** For a match that is not over, balances, positions and the round
    counter agree with the history, and the players are not both bankrupt. *)
Definition ledgerOK (g : Game.t) : Prop :=
  Game.GameOver g = false →
  Game.Player1Balance g = INITIAL_BUDGET - paid1 (Game.History g)
  ∧ Game.Player2Balance g = INITIAL_BUDGET - paid2 (Game.History g)
  ∧ Game.Player1Pos g = roundsWith "P1_WINS_ROUND" (Game.History g)
  ∧ Game.Player2Pos g = roundsWith "P2_WINS_ROUND" (Game.History g)
  ∧ Game.CurrentRound g = wrap (Z.of_nat (length (Game.History g)) + 1)
  ∧ ¬ (Game.Player1Balance g = 0 ∧ Game.Player2Balance g = 0).

Definition ledgersOK (h : Hub) : Prop := map_Forall (λ _ g, ledgerOK g) (games h).

(** The bid on the other side of the match, seen from [user]. *)
Definition otherBid (user : string) (game : Game.t) : option Z :=
  if decide (Game.Player1 game = user) then Game.Player2Bid game
  else Game.Player1Bid game.

(** The winner of a match that is not over is 0, and the winner of a
    match that is over is 1, 2 or 3. *)
Definition winnerOK (g : Game.t) : Prop :=
  if Game.GameOver g then Game.Winner g = 1 ∨ Game.Winner g = 2 ∨ Game.Winner g = 3
  else Game.Winner g = 0.

(** * Properties *)

(** ** Machine integers *)

Lemma wrap_id (z : Z) : is_int z → wrap z = z.
Proof.
  unfold is_int, wrap, int_min, int_max. intros Hz.
  rewrite Z.mod_small; lia.
Qed.

Lemma wrap_is_int (z : Z) : is_int (wrap z).
Proof.
  unfold is_int, wrap, int_min, int_max.
  pose proof (Z.mod_pos_bound (z + 2 ^ 63) (2 ^ 64)). lia.
Qed.

Lemma int_sub_exact (a b : Z) : 0 ≤ b ≤ a → a ≤ int_max → int_sub a b = a - b.
Proof.
  intros Hb Ha. apply wrap_id. unfold is_int, int_min, int_max in *. lia.
Qed.

Lemma int_inc_exact (a : Z) : int_min ≤ a < int_max → int_inc a = a + 1.
Proof.
  intros Ha. apply wrap_id. unfold is_int, int_min, int_max in *. lia.
Qed.

(** ** Round resolution *)

(** What [resolveRound] stores under [gp], whatever the branch. *)
Lemma resolveRound_stores (h : Hub) (gp : string) (game : Game.t) (tnow b1 b2 : Z) :
  Game.Player1Bid game = Some b1 → Game.Player2Bid game = Some b2 →
  ∃ game',
    games (resolveRound h gp game tnow).1 !! gp = Some game'
    ∧ Game.Player1Balance game' = int_sub (Game.Player1Balance game) b1
    ∧ Game.Player2Balance game' = int_sub (Game.Player2Balance game) b2
    ∧ Game.Player1Pos game' =
        (if b1 >? b2 then int_inc (Game.Player1Pos game) else Game.Player1Pos game)
    ∧ Game.Player2Pos game' =
        (if b1 >? b2 then Game.Player2Pos game
         else if b2 >? b1 then int_inc (Game.Player2Pos game) else Game.Player2Pos game)
    ∧ Game.History game' =
        Game.History game
        ++ [RoundHistory.mk (Game.CurrentRound game) b1 b2
              (Game.Player1Pos game') (Game.Player2Pos game') (roundTag b1 b2)]
    ∧ Game.Player1 game' = Game.Player1 game
    ∧ Game.Player2 game' = Game.Player2 game
    ∧ Game.ID game' = Game.ID game.
Proof.
  intros H1 H2. unfold resolveRound, roundTag. rewrite H1, H2.
  destruct (b1 >? b2); [|destruct (b2 >? b1)];
    (destruct (checkWinCondition _) as [winner reason]; destruct (winner >? 0);
     eexists; (split; [apply lookup_insert_eq|]); simpl; repeat split; reflexivity).
Qed.

(** C1.  When both bids [b1], [b2] of a match are set and valid
    ([0 ≤ bid ≤ balance] of the bidder), [resolveRound] leaves under the
    match's key a game whose balances are the old ones minus the own bid,
    whatever the outcome; if [b1 > b2] player one's position grew by one,
    player two's is unchanged and the tag is "P1_WINS_ROUND"; symmetrically
    for [b2 > b1] with "P2_WINS_ROUND"; if [b1 = b2] no position changed
    and the tag is "DRAW"; and the history is the old one followed by the
    entry (round number, both bids, both new positions, tag). *)
Theorem resolveRound_all_pay_and_movement
    (h : Hub) (gp : string) (game : Game.t) (tnow b1 b2 : Z) :
  Game.Player1Bid game = Some b1 → Game.Player2Bid game = Some b2 →
  0 ≤ b1 ≤ Game.Player1Balance game →
  0 ≤ b2 ≤ Game.Player2Balance game →
  roundInts game →
  ∃ (game' : Game.t) (tag : string),
    games (resolveRound h gp game tnow).1 !! gp = Some game'
    ∧ Game.Player1Balance game' = Game.Player1Balance game - b1
    ∧ Game.Player2Balance game' = Game.Player2Balance game - b2
    ∧ (b1 > b2 →
         Game.Player1Pos game' = Game.Player1Pos game + 1
         ∧ Game.Player2Pos game' = Game.Player2Pos game ∧ tag = "P1_WINS_ROUND")
    ∧ (b2 > b1 →
         Game.Player2Pos game' = Game.Player2Pos game + 1
         ∧ Game.Player1Pos game' = Game.Player1Pos game ∧ tag = "P2_WINS_ROUND")
    ∧ (b1 = b2 →
         Game.Player1Pos game' = Game.Player1Pos game
         ∧ Game.Player2Pos game' = Game.Player2Pos game ∧ tag = "DRAW")
    ∧ Game.History game' =
        Game.History game
        ++ [RoundHistory.mk (Game.CurrentRound game) b1 b2
              (Game.Player1Pos game') (Game.Player2Pos game') tag].
Proof.
  intros Hb1 Hb2 Hv1 Hv2 (Hi1 & Hi2 & Hp1 & Hp2).
  destruct (resolveRound_stores h gp game tnow b1 b2 Hb1 Hb2)
    as (game' & Hg & Hbal1 & Hbal2 & Hpos1 & Hpos2 & Hhist & _).
  exists game', (roundTag b1 b2).
  rewrite int_sub_exact in Hbal1 by assumption.
  rewrite int_sub_exact in Hbal2 by assumption.
  split; [exact Hg|]. split; [exact Hbal1|]. split; [exact Hbal2|].
  rewrite Hhist, Hpos1, Hpos2. unfold roundTag. clear Hhist Hpos1 Hpos2.
  destruct (Z.gtb_spec b1 b2) as [Hgt|Hle]; [|destruct (Z.gtb_spec b2 b1) as [Hgt'|Hle']];
    rewrite ?int_inc_exact by assumption;
    repeat (split || intros); first [reflexivity | lia].
Qed.

Lemma resolveRound_all_pay_and_movement_witness :
  ∃ (game' : Game.t) (tag : string),
    games (resolveRound newHub "g1" (bidGame 5 3 freshGame) 7).1 !! "g1" = Some game'
    ∧ Game.Player1Balance game' = 20 - 5
    ∧ Game.Player2Balance game' = 20 - 3
    ∧ (5 > 3 →
         Game.Player1Pos game' = 0 + 1 ∧ Game.Player2Pos game' = 0 ∧ tag = "P1_WINS_ROUND")
    ∧ (3 > 5 →
         Game.Player2Pos game' = 0 + 1 ∧ Game.Player1Pos game' = 0 ∧ tag = "P2_WINS_ROUND")
    ∧ (5 = 3 → Game.Player1Pos game' = 0 ∧ Game.Player2Pos game' = 0 ∧ tag = "DRAW")
    ∧ Game.History game' =
        [] ++ [RoundHistory.mk 1 5 3 (Game.Player1Pos game') (Game.Player2Pos game') tag].
Proof.
  apply (resolveRound_all_pay_and_movement newHub "g1" (bidGame 5 3 freshGame) 7 5 3).
  - reflexivity.
  - reflexivity.
  - simpl. unfold INITIAL_BUDGET. lia.
  - simpl. unfold INITIAL_BUDGET. lia.
  - unfold roundInts, int_min, int_max. simpl. unfold INITIAL_BUDGET. lia.
Defined.

(** ** The win condition *)

Lemma checkWinCondition_cases (g : Game.t) :
  (Game.Player1Pos g >= MAX_STEPS → checkWinCondition g = (1, "Reached final step"))
  ∧ (Game.Player1Pos g < MAX_STEPS → Game.Player2Pos g >= MAX_STEPS →
       checkWinCondition g = (2, "Reached final step"))
  ∧ (Game.Player1Pos g < MAX_STEPS → Game.Player2Pos g < MAX_STEPS →
       Game.Player1Balance g = 0 ∧ Game.Player2Balance g = 0 →
       (Game.Player1Pos g > Game.Player2Pos g →
          checkWinCondition g = (1, "Bankruptcy stalemate - higher position wins"))
       ∧ (Game.Player2Pos g > Game.Player1Pos g →
            checkWinCondition g = (2, "Bankruptcy stalemate - higher position wins"))
       ∧ (Game.Player1Pos g = Game.Player2Pos g →
            checkWinCondition g = (3, "Bankruptcy stalemate - draw")))
  ∧ (Game.Player1Pos g < MAX_STEPS → Game.Player2Pos g < MAX_STEPS →
       ¬ (Game.Player1Balance g = 0 ∧ Game.Player2Balance g = 0) →
       checkWinCondition g = (0, "")).
Proof.
  unfold checkWinCondition.
  destruct (Z.geb_spec (Game.Player1Pos g) MAX_STEPS);
    destruct (Z.geb_spec (Game.Player2Pos g) MAX_STEPS);
    destruct (Z.eqb_spec (Game.Player1Balance g) 0);
    destruct (Z.eqb_spec (Game.Player2Balance g) 0);
    destruct (Z.gtb_spec (Game.Player1Pos g) (Game.Player2Pos g));
    destruct (Z.gtb_spec (Game.Player2Pos g) (Game.Player1Pos g));
    rewrite ?andb_false_r; simpl;
    repeat (split || intros); first [reflexivity | lia | tauto].
Qed.

Lemma resolveRound_games (h : Hub) (gp : string) (game : Game.t) (tnow b1 b2 : Z) :
  Game.Player1Bid game = Some b1 → Game.Player2Bid game = Some b2 →
  games (resolveRound h gp game tnow).1 = <[gp := resolved b1 b2 tnow game]> (games h)
  ∧ users (resolveRound h gp game tnow).1 = users h
  ∧ challenges (resolveRound h gp game tnow).1 = challenges h.
Proof.
  intros H1 H2. unfold resolveRound, resolved, playRound, roundTag. rewrite H1, H2.
  destruct (b1 >? b2); [|destruct (b2 >? b1)];
    (destruct (checkWinCondition _) as [winner reason]; simpl;
     destruct (winner >? 0); simpl; repeat split; reflexivity).
Qed.

(** C2.  After a round is resolved, the game left under the match's key
    is judged by its new positions and balances in this order: player one
    at [MAX_STEPS] or beyond wins, whatever the balances; else player two
    at [MAX_STEPS] or beyond wins, whatever the balances; else, when both
    balances are exactly 0, the strictly higher position wins and equal
    positions are a draw (winner 3); else (some balance is not 0) the match
    continues: next round, bids cleared, waiting for bids, winner
    untouched. *)
Theorem win_condition_priority
    (h : Hub) (gp : string) (game : Game.t) (tnow b1 b2 : Z) :
  Game.Player1Bid game = Some b1 → Game.Player2Bid game = Some b2 →
  ∃ game' : Game.t,
    games (resolveRound h gp game tnow).1 !! gp = Some game'
    ∧ (Game.Player1Pos game' >= MAX_STEPS →
         Game.GameOver game' = true ∧ Game.Winner game' = 1)
    ∧ (Game.Player1Pos game' < MAX_STEPS → Game.Player2Pos game' >= MAX_STEPS →
         Game.GameOver game' = true ∧ Game.Winner game' = 2)
    ∧ (Game.Player1Pos game' < MAX_STEPS → Game.Player2Pos game' < MAX_STEPS →
       Game.Player1Balance game' = 0 ∧ Game.Player2Balance game' = 0 →
         Game.GameOver game' = true
         ∧ (Game.Player1Pos game' > Game.Player2Pos game' → Game.Winner game' = 1)
         ∧ (Game.Player2Pos game' > Game.Player1Pos game' → Game.Winner game' = 2)
         ∧ (Game.Player1Pos game' = Game.Player2Pos game' → Game.Winner game' = 3))
    ∧ (Game.Player1Pos game' < MAX_STEPS → Game.Player2Pos game' < MAX_STEPS →
       ¬ (Game.Player1Balance game' = 0 ∧ Game.Player2Balance game' = 0) →
         Game.GameOver game' = Game.GameOver game
         ∧ Game.Winner game' = Game.Winner game
         ∧ Game.Status game' = "WAITING_FOR_BIDS"
         ∧ Game.CurrentRound game' = int_inc (Game.CurrentRound game)
         ∧ Game.Player1Bid game' = None ∧ Game.Player2Bid game' = None).
Proof.
  intros H1 H2.
  destruct (resolveRound_games h gp game tnow b1 b2 H1 H2) as (Hg & _).
  exists (resolved b1 b2 tnow game).
  split; [rewrite Hg; apply lookup_insert_eq|].
  unfold resolved.
  assert (Hround : Game.CurrentRound (playRound b1 b2 game) = Game.CurrentRound game
                   ∧ Game.GameOver (playRound b1 b2 game) = Game.GameOver game
                   ∧ Game.Winner (playRound b1 b2 game) = Game.Winner game)
    by (repeat split).
  destruct Hround as (Hr & Ho & Hw).
  remember (playRound b1 b2 game) as game1 eqn:Hgame1. clear Hgame1.
  destruct (checkWinCondition_cases game1) as (Ca & Cb & Cc & Cd).
  destruct (Z.geb_spec (Game.Player1Pos game1) MAX_STEPS) as [Ha|Ha].
  { rewrite (Ca ltac:(lia)). simpl. repeat (split || intros); first [reflexivity | lia]. }
  destruct (Z.geb_spec (Game.Player2Pos game1) MAX_STEPS) as [Hb|Hb].
  { rewrite (Cb Ha ltac:(lia)). simpl. repeat (split || intros); first [reflexivity | lia]. }
  destruct (decide (Game.Player1Balance game1 = 0 ∧ Game.Player2Balance game1 = 0))
    as [Hz|Hz].
  - destruct (Cc Ha Hb Hz) as (C1 & C2 & C3).
    destruct (Z.lt_trichotomy (Game.Player1Pos game1) (Game.Player2Pos game1))
      as [Hlt|[Heq|Hgt]].
    + rewrite (C2 ltac:(lia)). simpl.
      repeat (split || intros); first [reflexivity | lia | tauto].
    + rewrite (C3 Heq). simpl.
      repeat (split || intros); first [reflexivity | lia | tauto].
    + rewrite (C1 ltac:(lia)). simpl.
      repeat (split || intros); first [reflexivity | lia | tauto].
  - rewrite (Cd Ha Hb Hz). simpl. rewrite Hr, Ho, Hw.
    repeat (split || intros); first [reflexivity | lia | tauto].
Qed.

Lemma win_condition_priority_witness :
  ∃ game' : Game.t,
    games (resolveRound newHub "g1" lastStepGame 9).1 !! "g1" = Some game'
    ∧ Game.Player1Balance game' = 0 ∧ Game.Player2Balance game' = 0
    ∧ Game.GameOver game' = true ∧ Game.Winner game' = 1.
Proof.
  destruct (win_condition_priority newHub "g1" lastStepGame 9 5 3 eq_refl eq_refl)
    as (game' & Hg & Ha & _).
  exists game'. split; [exact Hg|].
  vm_compute in Hg. injection Hg as <-.
  split; [reflexivity|]. split; [reflexivity|].
  apply Ha. vm_compute. discriminate.
Defined.

(** ** Bid submission *)

Lemma handleSubmitBid_unknown (h : Hub) (user : string) (msg : Message.t) (env : Env) :
  games h !! Message.GameID msg = None → handleSubmitBid h user msg env = (h, []).
Proof. intros Hg. unfold handleSubmitBid. rewrite Hg. reflexivity. Qed.

Lemma handleSubmitBid_stranger
    (h : Hub) (user : string) (msg : Message.t) (env : Env) (game : Game.t) :
  games h !! Message.GameID msg = Some game → ¬ involves user game →
  handleSubmitBid h user msg env = (h, []).
Proof.
  intros Hg Hn. unfold handleSubmitBid, involves in *. rewrite Hg.
  repeat case_decide; tauto.
Qed.

Lemma handleSubmitBid_out_of_range
    (h : Hub) (user : string) (msg : Message.t) (env : Env) (game : Game.t) :
  games h !! Message.GameID msg = Some game → involves user game →
  ¬ (0 ≤ Message.Bid msg ≤ balanceOf user game) →
  handleSubmitBid h user msg env =
    (h, [Send user (msg_error (if Message.Bid msg <? 0 then "Bid must be non-negative"
                               else "Bid exceeds your balance"))]).
Proof.
  intros Hg Hin Hbad. unfold handleSubmitBid, involves, balanceOf in *. rewrite Hg.
  repeat case_decide; try tauto; simpl;
    destruct (Z.ltb_spec (Message.Bid msg) 0); try reflexivity;
    match goal with |- context [?a >? ?b] => destruct (Z.gtb_spec a b) end;
    try reflexivity; lia.
Qed.

Lemma handleSubmitBid_in_range
    (h : Hub) (user : string) (msg : Message.t) (env : Env) (game : Game.t) :
  games h !! Message.GameID msg = Some game → involves user game →
  0 ≤ Message.Bid msg ≤ balanceOf user game →
  handleSubmitBid h user msg env =
    let game1 := storeBid user (Message.Bid msg) game in
    match Game.Player1Bid game1, Game.Player2Bid game1 with
    | Some _, Some _ =>
      resolveRound h (Message.GameID msg) (Game.set_Status "RESOLVING" game1) (now env)
    | _, _ => (withGame h (Message.GameID msg) game1, [])
    end.
Proof.
  intros Hg Hin Hok. unfold handleSubmitBid, involves, balanceOf, storeBid, withGame in *.
  rewrite Hg.
  repeat case_decide; try tauto; simpl;
    destruct (Z.ltb_spec (Message.Bid msg) 0); try lia;
    match goal with |- context [?a >? ?b] => destruct (Z.gtb_spec a b) end;
    try lia; reflexivity.
Qed.

(** C3.  A [submit_bid] for an unknown match, or from a user who is not
    one of the match's two players, changes nothing and sends nothing.
    From a player whose bid is outside [[0, balance]] it changes nothing
    and sends one error message, to the sender.  Only for a player's bid
    within [[0, balance]] is the bid stored on the player's side of the
    game (after which the round is resolved if both bids are set). *)
Theorem handleSubmitBid_validation
    (h : Hub) (user : string) (msg : Message.t) (env : Env) :
  (games h !! Message.GameID msg = None → handleSubmitBid h user msg env = (h, []))
  ∧ (∀ game : Game.t, games h !! Message.GameID msg = Some game →
       (¬ involves user game → handleSubmitBid h user msg env = (h, []))
       ∧ (involves user game → ¬ (0 ≤ Message.Bid msg ≤ balanceOf user game) →
            ∃ text : string,
              handleSubmitBid h user msg env = (h, [Send user (msg_error text)]))
       ∧ (involves user game → 0 ≤ Message.Bid msg ≤ balanceOf user game →
            handleSubmitBid h user msg env =
              let game1 := storeBid user (Message.Bid msg) game in
              match Game.Player1Bid game1, Game.Player2Bid game1 with
              | Some _, Some _ =>
                resolveRound h (Message.GameID msg)
                  (Game.set_Status "RESOLVING" game1) (now env)
              | _, _ => (withGame h (Message.GameID msg) game1, [])
              end))
  ∧ ((handleSubmitBid h user msg env).1 ≠ h →
       ∃ game : Game.t,
         games h !! Message.GameID msg = Some game ∧ involves user game
         ∧ 0 ≤ Message.Bid msg ≤ balanceOf user game).
Proof.
  split; [apply handleSubmitBid_unknown|].
  split.
  - intros game Hg. split; [apply (handleSubmitBid_stranger _ _ _ _ _ Hg)|].
    split.
    + intros Hin Hbad. eexists.
      apply (handleSubmitBid_out_of_range _ _ _ _ _ Hg Hin Hbad).
    + apply (handleSubmitBid_in_range _ _ _ _ _ Hg).
  - intros Hchg.
    destruct (games h !! Message.GameID msg) as [game|] eqn:Hg.
    + exists game. split; [reflexivity|].
      destruct (decide (involves user game)) as [Hin|Hout].
      * split; [exact Hin|].
        destruct (decide (0 ≤ Message.Bid msg ≤ balanceOf user game)) as [Hok|Hbad];
          [exact Hok|].
        rewrite (handleSubmitBid_out_of_range _ _ _ _ _ Hg Hin Hbad) in Hchg.
        contradiction Hchg; reflexivity.
      * rewrite (handleSubmitBid_stranger _ _ _ _ _ Hg Hout) in Hchg.
        contradiction Hchg; reflexivity.
    + rewrite (handleSubmitBid_unknown _ _ _ _ Hg) in Hchg.
      contradiction Hchg; reflexivity.
Qed.

Lemma handleSubmitBid_validation_witness :
  ∃ text : string,
    handleSubmitBid oneGameHub "A" (bidMsg "g1" 21) (mkEnv "u" 5)
    = (oneGameHub, [Send "A" (msg_error text)]).
Proof.
  destruct (handleSubmitBid_validation oneGameHub "A" (bidMsg "g1" 21) (mkEnv "u" 5))
    as (_ & Hgame & _).
  destruct (Hgame freshGame) as (_ & Hbad & _).
  - reflexivity.
  - apply Hbad.
    + left. reflexivity.
    + vm_compute. intros [_ Hle]. apply Hle. reflexivity.
Defined.

(** ** Effects: what was sent and what was started *)

Lemma spawned_app (l1 l2 : list Effect) : spawned (l1 ++ l2) = spawned l1 ++ spawned l2.
Proof. unfold spawned. apply omap_app. Qed.

Lemma sent_app (l1 l2 : list Effect) : sent (l1 ++ l2) = sent l1 ++ sent l2.
Proof. unfold sent. apply omap_app. Qed.

Lemma spawned_sends (l : list string) (m : Message.t) :
  spawned (flat_map (λ p, sendToUser p m) l) = [].
Proof. induction l as [|x l IH]; [reflexivity|exact IH]. Qed.

Lemma spawned_broadcast (h : Hub) : spawned (broadcastUserList h) = [].
Proof. unfold broadcastUserList. apply spawned_sends. Qed.

Lemma sent_sends (l : list string) (m : Message.t) (x : string * Message.t) :
  x ∈ sent (flat_map (λ p, sendToUser p m) l) → x.2 = m.
Proof.
  induction l as [|p l IH]; simpl.
  - intros Hx. inversion Hx.
  - intros Hx. apply elem_of_cons in Hx as [-> | Hx]; [reflexivity|]. apply IH, Hx.
Qed.

Lemma sent_broadcast (h : Hub) (x : string * Message.t) :
  x ∈ sent (broadcastUserList h) → Message.Type_ x.2 = "users_update".
Proof.
  unfold broadcastUserList. intros Hx. apply sent_sends in Hx. rewrite Hx. reflexivity.
Qed.

(** ** Resignation *)

Lemma alter_clear_deref (o : gmap string User.t) (p q : string) :
  let o' := alter (User.set_InGame false "") q (alter (User.set_InGame false "") p o) in
  ∀ r, r = p ∨ r = q →
       User.InGame (default User.zero (o' !! r)) = false
       ∧ User.GameID (default User.zero (o' !! r)) = "".
Proof.
  intros o' r Hr. subst o'.
  rewrite !lookup_alter.
  repeat case_decide; subst; try (destruct Hr; congruence);
    match goal with |- context [o !! ?x] => destruct (o !! x) end;
    split; reflexivity.
Qed.



(** ** Runs of the event loop *)

Lemma run_reachable (evs : list Event) (s : Sys) :
  reachable s → runOK s evs → reachable (run s evs).
Proof.
  revert s. induction evs as [|ev evs IH]; intros s Hs Hok; simpl in *.
  - exact Hs.
  - destruct Hok as [Hen Hok]. apply IH; [|exact Hok].
    eapply reach_step; [exact Hs|]. apply step_event. exact Hen.
Qed.

(** ** Scenario C: the five bid pairs 5/3, 3/6, 8/4, 5/5, 7/2 *)

(** C8, as stated, fails: after the five bid pairs have been submitted to
    a fresh match, the match is not one with player one at position 3,
    over, and won by player one. *)
Lemma scenarioC_not_finished :
  ¬ ∃ g : Game.t,
      games (hub (run newSys scenarioC)) !! "g1" = Some g
      ∧ Game.Player1Pos g = 3 ∧ Game.GameOver g = true ∧ Game.Winner g = 1.
Proof.
  intros (g & Hg & Hpos & _). vm_compute in Hg. injection Hg as <-. discriminate Hpos.
Qed.

(** C8, amended.  The run is one the server can see, and whichever
    player of a pair submits first, the five pairs leave the match in round
    4, not over and without winner, at positions 2/1 with balances 4/7 and
    three rounds in the history: player one has 4 left after three rounds,
    so the bids 5 and 7 are each answered with "Bid exceeds your balance"
    and never stored, while player two's last bid 2 waits.  Fed to
    [resolveRound] directly, without the validation of [handleSubmitBid],
    the same five pairs end with player one at position 3, the match over
    and won by player one. *)
Theorem scenarioC_outcome :
  runOK newSys scenarioC
  ∧ stalledInRound4 scenarioC
  ∧ stalledInRound4 scenarioCRev
  ∧ (∃ g : Game.t,
       games scenarioCDirect !! "g1" = Some g
       ∧ Game.Player1Pos g = 3 ∧ Game.GameOver g = true ∧ Game.Winner g = 1
       ∧ Game.Player1Balance g = -8).
Proof.
  split; [apply (bool_decide_unpack _); vm_compute; exact I|].
  repeat split; eexists; (split; [vm_compute; reflexivity|]);
    vm_compute; repeat split; reflexivity.
Qed.

(** ** Bids on a match that is over *)

(** C4 at a failing input.  The state after [finishedTrace] is reachable
    and holds the finished match (over, won by player one, positions 3/0,
    balances 2/5) with the removal still pending.  B's next bid 5 is within
    B's balance; [handleSubmitBid] stores it and resolves a round against
    A's stale bid 16: in the reachable state that follows, player one's
    balance is -14 and player one's position is 4, beyond [MAX_STEPS]. *)
Theorem bid_after_game_over_breaks_bounds :
  reachable (run newSys finishedTrace)
  ∧ pending (run newSys finishedTrace) = [SleepThenDelete (10 * time_Second) "g1"]
  ∧ (∃ g : Game.t,
       games (hub (run newSys finishedTrace)) !! "g1" = Some g
       ∧ Game.GameOver g = true ∧ Game.Winner g = 1
       ∧ Game.Player1Pos g = 3 ∧ Game.Player2Pos g = 0
       ∧ Game.Player1Balance g = 2 ∧ Game.Player2Balance g = 5)
  ∧ reachable (run newSys overrunTrace)
  ∧ (∃ g : Game.t,
       games (hub (run newSys overrunTrace)) !! "g1" = Some g
       ∧ Game.Player1Balance g = -14 ∧ Game.Player1Balance g < 0
       ∧ Game.Player1Pos g = 4 ∧ Game.Player1Pos g > MAX_STEPS).
Proof.
  split.
  { apply run_reachable; [apply reach_init|].
    apply (bool_decide_unpack _); vm_compute; exact I. }
  split; [vm_compute; reflexivity|].
  split.
  { eexists. split; [vm_compute; reflexivity|]. vm_compute. repeat split; reflexivity. }
  split.
  { apply run_reachable; [apply reach_init|].
    apply (bool_decide_unpack _); vm_compute; exact I. }
  eexists. split; [vm_compute; reflexivity|]. vm_compute. repeat split; reflexivity.
Qed.

(** ** Two matches for one user *)

(** C6 at a failing input.  After [doubleAccept] the hub is in a
    reachable state that holds two different matches, neither of them
    over, with B as player two of both. *)
Theorem accept_creates_second_match :
  reachable (run newSys doubleAccept)
  ∧ ∃ g1 g2 : Game.t,
      games (hub (run newSys doubleAccept)) !! "g1" = Some g1
      ∧ games (hub (run newSys doubleAccept)) !! "g2" = Some g2
      ∧ Game.GameOver g1 = false ∧ Game.GameOver g2 = false
      ∧ Game.Player1 g1 = "A" ∧ Game.Player2 g1 = "B"
      ∧ Game.Player1 g2 = "C" ∧ Game.Player2 g2 = "B".
Proof.
  split.
  { apply run_reachable; [apply reach_init|].
    apply (bool_decide_unpack _); vm_compute; exact I. }
  eexists _, _. split; [vm_compute; reflexivity|]. split; [vm_compute; reflexivity|].
  vm_compute. repeat split; reflexivity.
Qed.

(** [resolveRound] sends round results, game ends, user lists and
    waiting-for-bids snapshots, and no error. *)
Lemma resolveRound_sends (h : Hub) (gp : string) (game : Game.t) (tnow : Z)
    (x : string * Message.t) :
  x ∈ sent (resolveRound h gp game tnow).2 → Message.Type_ x.2 ≠ "error".
Proof.
  unfold resolveRound.
  destruct (Game.Player1Bid game) as [b1|]; [|intros Hx; inversion Hx].
  destruct (Game.Player2Bid game) as [b2|]; [|intros Hx; inversion Hx].
  destruct (if b1 >? b2 then _ else _) as [[p1 p2] tag].
  destruct (checkWinCondition _) as [winner reason].
  destruct (winner >? 0); simpl; intros Hx;
    repeat (rewrite ?app_comm_cons, sent_app in Hx; simpl in Hx);
    repeat (apply elem_of_cons in Hx as [-> | Hx] || apply elem_of_app in Hx as [Hx | Hx]);
    try discriminate; try (inversion Hx; fail).
  apply sent_broadcast in Hx. rewrite Hx. discriminate.
Qed.

(** A bid submission that ends a match leaves the two bids of the last
    round in the game. *)
Lemma finishing_bid_keeps_bids
    (h : Hub) (user : string) (msg : Message.t) (env : Env) (game game1 : Game.t) :
  games h !! Message.GameID msg = Some game → Game.GameOver game = false →
  games (handleSubmitBid h user msg env).1 !! Message.GameID msg = Some game1 →
  Game.GameOver game1 = true →
  ∃ b1 b2 : Z, Game.Player1Bid game1 = Some b1 ∧ Game.Player2Bid game1 = Some b2.
Proof.
  intros Hg Hrun Hg1 Hover.
  destruct (decide (involves user game)) as [Hin|Hout];
    [|rewrite (handleSubmitBid_stranger _ _ _ _ _ Hg Hout) in Hg1; simpl in Hg1;
      congruence].
  destruct (decide (0 ≤ Message.Bid msg ≤ balanceOf user game)) as [Hok|Hbad];
    [|rewrite (handleSubmitBid_out_of_range _ _ _ _ _ Hg Hin Hbad) in Hg1; simpl in Hg1;
      congruence].
  rewrite (handleSubmitBid_in_range _ _ _ _ _ Hg Hin Hok) in Hg1. cbv zeta in Hg1.
  assert (Hstill : Game.GameOver (storeBid user (Message.Bid msg) game) = false).
  { unfold storeBid. case_decide; exact Hrun. }
  destruct (Game.Player1Bid (storeBid user (Message.Bid msg) game)) as [b1|] eqn:E1;
    [destruct (Game.Player2Bid (storeBid user (Message.Bid msg) game)) as [b2|] eqn:E2|].
  - destruct (resolveRound_games h (Message.GameID msg)
                (Game.set_Status "RESOLVING" (storeBid user (Message.Bid msg) game))
                (now env) b1 b2 E1 E2) as (Hgs & _).
    rewrite Hgs, lookup_insert_eq in Hg1. injection Hg1 as <-.
    exists b1, b2. revert Hover. unfold resolved.
    destruct (_ >? 0); simpl; [intros _; split; assumption|].
    rewrite Hstill. discriminate.
  - unfold withGame in Hg1. simpl in Hg1. rewrite lookup_insert_eq in Hg1. congruence.
  - unfold withGame in Hg1. simpl in Hg1. rewrite lookup_insert_eq in Hg1. congruence.
Qed.

Lemma checkWinCondition_resolved (b1 b2 tnow : Z) (game : Game.t) :
  checkWinCondition (resolved b1 b2 tnow game) = checkWinCondition (playRound b1 b2 game).
Proof. unfold resolved. destruct (_ >? 0); reflexivity. Qed.

(** A bid within the balance, for a match in which no bid is stored, is
    stored and nothing else happens. *)
Lemma lone_bid_only_stored
    (h : Hub) (user : string) (msg : Message.t) (env : Env) (game : Game.t) :
  games h !! Message.GameID msg = Some game → involves user game →
  0 ≤ Message.Bid msg ≤ balanceOf user game →
  Game.Player1Bid game = None → Game.Player2Bid game = None →
  handleSubmitBid h user msg env
  = (withGame h (Message.GameID msg) (storeBid user (Message.Bid msg) game), []).
Proof.
  intros Hg Hin Hok H1 H2.
  rewrite (handleSubmitBid_in_range _ _ _ env _ Hg Hin Hok). cbv zeta.
  unfold storeBid. case_decide; simpl; rewrite ?H1, ?H2; reflexivity.
Qed.

(** C10, as stated, fails.  After [drawTrace] the match "g1" is over by
    bid resolution (a draw, winner 3) and still in the match map, and so it
    is after A's late bid 0, which is resolved against B's stale bid 20
    without a winner, so that both bids are cleared.  A's next bid 0 is
    within its balance 0, and it is only stored: no round is resolved, no
    message is sent and the history, balances and positions stay as they
    were. *)
Lemma bid_on_finished_match_only_stored :
  let h := hub (run newSys lateBidTrace) in
  let r := handleSubmitBid h "A" (bidMsg "g1" 0) (mkEnv "u" 50) in
  runOK newSys (lateBidTrace ++ [ClientMessage "A" (bidMsg "g1" 0) (mkEnv "u" 50)])
  ∧ (∃ g0 : Game.t,
       games (hub (run newSys drawTrace)) !! "g1" = Some g0
       ∧ Game.GameOver g0 = true ∧ Game.Winner g0 = 3)
  ∧ ∃ g g' : Game.t,
      games h !! "g1" = Some g ∧ Game.GameOver g = true
      ∧ involves "A" g ∧ 0 ≤ 0 ≤ balanceOf "A" g
      ∧ games r.1 !! "g1" = Some g' ∧ r.2 = []
      ∧ g' = Game.set_Player1Bid (Some 0) g
      ∧ Game.History g' = Game.History g ∧ Game.Player2Bid g' = None.
Proof.
  split; [apply (bool_decide_unpack _); vm_compute; exact I|].
  split.
  - eexists. split; [vm_compute; reflexivity|]. split; reflexivity.
  - eexists. eexists. split; [vm_compute; reflexivity|].
    split; [reflexivity|]. split; [left; reflexivity|].
    split; [vm_compute; split; discriminate|].
    split; [vm_compute; reflexivity|].
    repeat split; vm_compute; reflexivity.
Qed.

(** C10, amended.  A bid submission that ends a match leaves both bids
    of the last round set.  And for every match in the match map that is
    over and has both bids set, a [submit_bid] from one of its players with
    a bid within [[0, balance]] of that player is taken: the hub resolves a
    round with the new bid on the sender's side and the stale bid on the
    other side, deducts both from the balances, advances the position of
    the strictly higher bid and appends the round to the history; what the
    handler returns is what [resolveRound] returns on the game with the bid
    stored, no error is among the messages sent, and the match stays over.
    If the win check of the new positions and balances names a winner, both
    bids stay set, so the next late bid is resolved in the same way.  If it
    does not, both bids are cleared, and a following bid within the
    bidder's balance is only stored: nothing is resolved and nothing is
    sent. *)
Theorem submit_bid_on_finished_match :
  (∀ (h : Hub) (user : string) (msg : Message.t) (env : Env) (game game1 : Game.t),
     games h !! Message.GameID msg = Some game → Game.GameOver game = false →
     games (handleSubmitBid h user msg env).1 !! Message.GameID msg = Some game1 →
     Game.GameOver game1 = true →
     ∃ b1 b2 : Z, Game.Player1Bid game1 = Some b1 ∧ Game.Player2Bid game1 = Some b2)
  ∧ (∀ (h : Hub) (user : string) (msg : Message.t) (env : Env) (game1 : Game.t)
       (b1 b2 : Z),
     games h !! Message.GameID msg = Some game1 → Game.GameOver game1 = true →
     Game.Player1Bid game1 = Some b1 → Game.Player2Bid game1 = Some b2 →
     involves user game1 → 0 ≤ Message.Bid msg ≤ balanceOf user game1 →
     let b1' := if decide (Game.Player1 game1 = user) then Message.Bid msg else b1 in
     let b2' := if decide (Game.Player1 game1 = user) then b2 else Message.Bid msg in
     let r := handleSubmitBid h user msg env in
     ∃ game2 : Game.t,
       games r.1 !! Message.GameID msg = Some game2
       ∧ Game.Player1Balance game2 = int_sub (Game.Player1Balance game1) b1'
       ∧ Game.Player2Balance game2 = int_sub (Game.Player2Balance game1) b2'
       ∧ Game.Player1Pos game2 =
           (if b1' >? b2' then int_inc (Game.Player1Pos game1)
            else Game.Player1Pos game1)
       ∧ Game.Player2Pos game2 =
           (if b1' >? b2' then Game.Player2Pos game1
            else if b2' >? b1' then int_inc (Game.Player2Pos game1)
            else Game.Player2Pos game1)
       ∧ Game.History game2 =
           Game.History game1
           ++ [RoundHistory.mk (Game.CurrentRound game1) b1' b2'
                 (Game.Player1Pos game2) (Game.Player2Pos game2) (roundTag b1' b2')]
       ∧ r = resolveRound h (Message.GameID msg)
               (Game.set_Status "RESOLVING" (storeBid user (Message.Bid msg) game1))
               (now env)
       ∧ (∀ x, x ∈ sent r.2 → Message.Type_ x.2 ≠ "error")
       ∧ Game.GameOver game2 = true
       ∧ if (checkWinCondition game2).1 >? 0
         then Game.Player1Bid game2 = Some b1' ∧ Game.Player2Bid game2 = Some b2'
         else Game.Player1Bid game2 = None ∧ Game.Player2Bid game2 = None
              ∧ ∀ (user' : string) (msg' : Message.t) (env' : Env),
                  Message.GameID msg' = Message.GameID msg → involves user' game2 →
                  0 ≤ Message.Bid msg' ≤ balanceOf user' game2 →
                  handleSubmitBid r.1 user' msg' env'
                  = (withGame r.1 (Message.GameID msg)
                       (storeBid user' (Message.Bid msg') game2), [])).
Proof.
  split; [exact finishing_bid_keeps_bids|].
  intros h user msg env game1 b1 b2 Hg1 Hover Hb1 Hb2 Hin Hok b1' b2' r.
  pose proof (handleSubmitBid_in_range _ _ _ env _ Hg1 Hin Hok) as Hsub.
  cbv zeta in Hsub.
  assert (Hbids : Game.Player1Bid (storeBid user (Message.Bid msg) game1) = Some b1'
                  ∧ Game.Player2Bid (storeBid user (Message.Bid msg) game1) = Some b2').
  { subst b1' b2'. unfold storeBid. case_decide; simpl; split; assumption || reflexivity. }
  destruct Hbids as [Hb1' Hb2'].
  rewrite Hb1', Hb2' in Hsub.
  assert (Hsame : Game.Player1Balance (storeBid user (Message.Bid msg) game1)
                    = Game.Player1Balance game1
                  ∧ Game.Player2Balance (storeBid user (Message.Bid msg) game1)
                      = Game.Player2Balance game1
                  ∧ Game.Player1Pos (storeBid user (Message.Bid msg) game1)
                      = Game.Player1Pos game1
                  ∧ Game.Player2Pos (storeBid user (Message.Bid msg) game1)
                      = Game.Player2Pos game1
                  ∧ Game.History (storeBid user (Message.Bid msg) game1)
                      = Game.History game1
                  ∧ Game.CurrentRound (storeBid user (Message.Bid msg) game1)
                      = Game.CurrentRound game1
                  ∧ Game.GameOver (storeBid user (Message.Bid msg) game1)
                      = Game.GameOver game1).
  { unfold storeBid. case_decide; repeat split. }
  destruct Hsame as (S1 & S2 & S3 & S4 & S5 & S6 & S7).
  remember (storeBid user (Message.Bid msg) game1) as stored eqn:Hstored.
  destruct (resolveRound_stores h (Message.GameID msg)
              (Game.set_Status "RESOLVING" stored) (now env) b1' b2' Hb1' Hb2')
    as (game2 & Hg2 & Hbal1 & Hbal2 & Hp1 & Hp2 & Hh & _).
  destruct (resolveRound_games h (Message.GameID msg)
              (Game.set_Status "RESOLVING" stored) (now env) b1' b2' Hb1' Hb2')
    as (Hgs & _).
  pose proof Hg2 as Hres. rewrite Hgs, lookup_insert_eq in Hres. injection Hres as Hres.
  simpl in Hbal1, Hbal2, Hp1, Hp2, Hh.
  rewrite S1 in Hbal1. rewrite S2 in Hbal2. rewrite S3 in Hp1. rewrite S4 in Hp2.
  rewrite S5, S6 in Hh.
  exists game2. subst r. rewrite Hsub.
  split; [exact Hg2|]. split; [exact Hbal1|]. split; [exact Hbal2|].
  split; [exact Hp1|]. split; [exact Hp2|]. split; [exact Hh|].
  split; [reflexivity|]. split; [apply resolveRound_sends|].
  assert (Hcheck : checkWinCondition game2
                   = checkWinCondition (playRound b1' b2' (Game.set_Status "RESOLVING" stored))).
  { rewrite <- Hres. apply checkWinCondition_resolved. }
  rewrite Hcheck.
  assert (Hfields :
            Game.GameOver game2 = true
            ∧ if (checkWinCondition
                    (playRound b1' b2' (Game.set_Status "RESOLVING" stored))).1 >? 0
              then Game.Player1Bid game2 = Some b1' ∧ Game.Player2Bid game2 = Some b2'
              else Game.Player1Bid game2 = None ∧ Game.Player2Bid game2 = None).
  { rewrite <- Hres. unfold resolved.
    destruct (_ >? 0); simpl; rewrite ?S7, ?Hover; repeat split; assumption. }
  destruct Hfields as [Hov Hb]. split; [exact Hov|].
  destruct (_ >? 0); [exact Hb|].
  destruct Hb as [Hn1 Hn2]. split; [exact Hn1|]. split; [exact Hn2|].
  intros user' msg' env' Hid Hin' Hok'.
  rewrite <- Hid in Hg2 |- *.
  apply lone_bid_only_stored; assumption.
Qed.

Lemma submit_bid_on_finished_match_witness :
  ∃ game2 : Game.t,
    games (handleSubmitBid
             (handleSubmitBid beforeLastBid "B" (bidMsg "g1" 15) (mkEnv "u" 30)).1
             "B" (bidMsg "g1" 5) (mkEnv "u" 40)).1 !! "g1" = Some game2
    ∧ Game.Player1Balance game2 = -14 ∧ Game.Player2Balance game2 = 0
    ∧ Game.Player1Pos game2 = 4 ∧ length (Game.History game2) = 4%nat
    ∧ Game.GameOver game2 = true.
Proof.
  destruct submit_bid_on_finished_match as [Hfin Hlate].
  destruct (games beforeLastBid !! "g1") as [game|] eqn:Hg;
    [|vm_compute in Hg; discriminate].
  destruct (games (handleSubmitBid beforeLastBid "B" (bidMsg "g1" 15)
                     (mkEnv "u" 30)).1 !! "g1") as [game1|] eqn:Hg1;
    [|vm_compute in Hg1; discriminate].
  pose proof Hg as Hg'. vm_compute in Hg'. injection Hg' as <-.
  pose proof Hg1 as Hg1'. vm_compute in Hg1'. injection Hg1' as <-.
  destruct (Hfin beforeLastBid "B" (bidMsg "g1" 15) (mkEnv "u" 30) _ _
              Hg eq_refl Hg1 eq_refl) as (b1 & b2 & Hb1 & Hb2).
  destruct (Hlate (handleSubmitBid beforeLastBid "B" (bidMsg "g1" 15) (mkEnv "u" 30)).1
              "B" (bidMsg "g1" 5) (mkEnv "u" 40) _ b1 b2 Hg1 eq_refl Hb1 Hb2)
    as (game2 & Hg2 & Hbal1 & Hbal2 & Hp1 & _ & Hh & _ & _ & Hov & _).
  - right. reflexivity.
  - vm_compute. split; discriminate.
  - injection Hb1 as <-. injection Hb2 as <-.
    exists game2. split; [exact Hg2|].
    split; [rewrite Hbal1; reflexivity|].
    split; [rewrite Hbal2; reflexivity|].
    split; [rewrite Hp1; reflexivity|].
    split; [rewrite Hh; reflexivity|]. exact Hov.
Defined.

(** ** Pending challenges *)



Lemma resolveRound_frame (h : Hub) (gp : string) (game : Game.t) (tnow : Z) :
  users (resolveRound h gp game tnow).1 = users h
  ∧ challenges (resolveRound h gp game tnow).1 = challenges h.
Proof.
  unfold resolveRound.
  destruct (Game.Player1Bid game) as [b1|]; [|split; reflexivity].
  destruct (Game.Player2Bid game) as [b2|]; [|split; reflexivity].
  destruct (if b1 >? b2 then _ else _) as [[p1 p2] tag].
  destruct (checkWinCondition _) as [winner reason].
  destruct (winner >? 0); split; reflexivity.
Qed.

Lemma handleSubmitBid_frame (h : Hub) (user : string) (msg : Message.t) (env : Env) :
  users (handleSubmitBid h user msg env).1 = users h
  ∧ challenges (handleSubmitBid h user msg env).1 = challenges h.
Proof.
  unfold handleSubmitBid.
  destruct (games h !! Message.GameID msg) as [game|]; [|split; reflexivity].
  repeat case_decide; try (split; reflexivity);
    (destruct (Message.Bid msg <? 0); [split; reflexivity|];
     destruct (Message.Bid msg >? _); [split; reflexivity|]; simpl;
     repeat match goal with
            | |- context [match ?o with Some _ => _ | None => _ end] => destruct o
            end;
     first [apply resolveRound_frame | split; reflexivity]).
Qed.

Lemma handleResign_frame (h : Hub) (user : string) (msg : Message.t) (env : Env) :
  users (handleResign h user msg env).1 = users h
  ∧ challenges (handleResign h user msg env).1 = challenges h.
Proof.
  unfold handleResign.
  destruct (games h !! Message.GameID msg) as [game|]; [|split; reflexivity].
  destruct (Game.GameOver game); [split; reflexivity|].
  repeat case_decide; split; reflexivity.
Qed.








(** ** Removal of a finished match *)

Lemma keepsGames_refl (h : Hub) : keepsGames h h.
Proof. intros gid Hg. exact Hg. Qed.

Lemma keepsGames_same (h h' : Hub) : games h' = games h → keepsGames h h'.
Proof. intros Heq gid Hg. rewrite Heq. exact Hg. Qed.

Lemma keepsGames_insert (h h' : Hub) (gp : string) (g : Game.t) :
  games h' = <[gp := g]> (games h) → keepsGames h h'.
Proof.
  intros Heq gid Hg. rewrite Heq. apply lookup_insert_is_Some'. right. exact Hg.
Qed.

Lemma resolveRound_keepsGames (h : Hub) (gp : string) (game : Game.t) (tnow : Z) :
  keepsGames h (resolveRound h gp game tnow).1.
Proof.
  destruct (Game.Player1Bid game) as [b1|] eqn:E1;
    [destruct (Game.Player2Bid game) as [b2|] eqn:E2|].
  - destruct (resolveRound_games h gp game tnow b1 b2 E1 E2) as (Hg & _).
    eapply keepsGames_insert, Hg.
  - unfold resolveRound. rewrite E1, E2. apply keepsGames_refl.
  - unfold resolveRound. rewrite E1. apply keepsGames_refl.
Qed.

Lemma handleClientMessage_keepsGames
    (h : Hub) (user : string) (msg : Message.t) (env : Env) :
  keepsGames h (handleClientMessage h user msg env).1.
Proof.
  unfold handleClientMessage.
  repeat match goal with |- context [String.eqb ?a ?b] => destruct (String.eqb a b) end;
    try apply keepsGames_refl.
  - unfold handleChallenge. case_decide; [|apply keepsGames_refl].
    destruct (User.InGame _); [apply keepsGames_refl|].
    case_decide; apply keepsGames_same; reflexivity.
  - unfold handleAcceptChallenge.
    destruct (challenges h !! _); [|apply keepsGames_refl].
    case_decide; [|apply keepsGames_refl].
    eapply keepsGames_insert. reflexivity.
  - unfold handleDeclineChallenge.
    destruct (challenges h !! _); [|apply keepsGames_refl].
    case_decide; apply keepsGames_same; reflexivity.
  - unfold handleSubmitBid.
    destruct (games h !! Message.GameID msg) as [game|]; [|apply keepsGames_refl].
    repeat case_decide; try apply keepsGames_refl;
      (destruct (Message.Bid msg <? 0); [apply keepsGames_refl|];
       destruct (Message.Bid msg >? _); [apply keepsGames_refl|]; simpl;
       repeat match goal with
              | |- context [match ?o with Some _ => _ | None => _ end] => destruct o
              end;
       first [apply resolveRound_keepsGames | eapply keepsGames_insert; reflexivity]).
  - unfold handleRematch.
    destruct (games h !! _); [|apply keepsGames_refl].
    repeat case_decide; apply keepsGames_refl.
  - unfold handleResign.
    destruct (games h !! Message.GameID msg) as [game|]; [|apply keepsGames_refl].
    destruct (Game.GameOver game); [apply keepsGames_refl|].
    repeat case_decide; try apply keepsGames_refl; eapply keepsGames_insert; reflexivity.
Qed.

(** No event of the loop takes a match out of [h.games], except the
    disconnect of one of its players. *)
Lemma hubStep_keeps_match (h : Hub) (ev : Event) (gid : string) (g : Game.t) :
  games h !! gid = Some g →
  (∀ user, ev = Unregister user → ¬ involves user g) →
  is_Some (games (hubStep h ev).1 !! gid).
Proof.
  intros Hg Hev. destruct ev as [userID username|user|user msg env|tnow]; simpl.
  - eauto.
  - case_decide; [|eauto]. simpl. exists g.
    apply map_lookup_filter_Some. split; [exact Hg|]. simpl. apply Hev. reflexivity.
  - apply handleClientMessage_keepsGames. eauto.
  - eauto.
Qed.

(** What the two terminal paths start. *)
Lemma resolveRound_spawned (h : Hub) (gp : string) (game : Game.t) (tnow b1 b2 : Z) :
  Game.Player1Bid game = Some b1 → Game.Player2Bid game = Some b2 →
  spawned (resolveRound h gp game tnow).2 =
    if (checkWinCondition (playRound b1 b2 game)).1 >? 0
    then [SleepThenDelete (10 * time_Second) (Game.ID game)] else [].
Proof.
  intros H1 H2. unfold resolveRound, playRound, roundTag. rewrite H1, H2.
  destruct (b1 >? b2); [|destruct (b2 >? b1)];
    (destruct (checkWinCondition _) as [winner reason]; simpl;
     destruct (winner >? 0); simpl; [|reflexivity];
     rewrite ?app_comm_cons, spawned_app; simpl;
     rewrite spawned_broadcast; reflexivity).
Qed.

Lemma handleResign_spawned
    (h : Hub) (user : string) (msg : Message.t) (env : Env) (game : Game.t) :
  games h !! Message.GameID msg = Some game → involves user game →
  Game.GameOver game = false →
  spawned (handleResign h user msg env).2
  = [SleepThenDelete (10 * time_Second) (Game.ID game)].
Proof.
  intros Hg Hin Hrun. unfold handleResign, involves in *. rewrite Hg, Hrun.
  repeat case_decide; try tauto; simpl;
    rewrite ?app_comm_cons, spawned_app; simpl; rewrite spawned_broadcast; reflexivity.
Qed.

(** C9 at a failing input.  After [finishedTrace] the match "g1" is over
    and still in the match map, and its removal sits in a goroutine
    started by [resolveRound].  Whatever event the loop receives next,
    short of a disconnect of A or B, the match is still in the map
    afterwards: no event through the loop performs the removal.  The
    removal is the goroutine's own step, a [delete] on the match map taken
    beside the loop. *)
Theorem finished_match_removed_outside_loop :
  let s := run newSys finishedTrace in
  let g := SleepThenDelete (10 * time_Second) "g1" in
  pending s = [g]
  ∧ (∃ game, games (hub s) !! "g1" = Some game ∧ Game.GameOver game = true)
  ∧ (∀ ev : Event,
       ev = Unregister "A" ∨ ev = Unregister "B"
       ∨ is_Some (games (hubStep (hub s) ev).1 !! "g1"))
  ∧ games (runGoroutine g (hub s)) !! "g1" = None
  ∧ step s (mkSys (runGoroutine g (hub s)) []).
Proof.
  intros s g.
  assert (Hp : pending s = [g]) by (vm_compute; reflexivity).
  assert (Hg : ∃ game, games (hub s) !! "g1" = Some game ∧ Game.GameOver game = true
                       ∧ Game.Player1 game = "A" ∧ Game.Player2 game = "B").
  { eexists. split; [vm_compute; reflexivity|]. repeat split. }
  destruct Hg as (game & Hg & Hover & HA & HB).
  split; [exact Hp|]. split; [exists game; split; assumption|]. split.
  - intros ev.
    assert (Hcase : ev = Unregister "A" ∨ ev = Unregister "B"
                    ∨ ∀ user, ev = Unregister user → ¬ involves user game).
    { destruct ev as [userID username|user|user msg env|tnow];
        try (right; right; intros user' Heq; discriminate Heq).
      destruct (decide (user = "A")) as [->|HnA]; [left; reflexivity|].
      destruct (decide (user = "B")) as [->|HnB]; [right; left; reflexivity|].
      right. right. intros user' Heq [H1|H2]; congruence. }
    destruct Hcase as [->|[->|Hother]]; [left; reflexivity|right; left; reflexivity|].
    right. right. apply (hubStep_keeps_match _ _ _ game Hg Hother).
  - split; [apply lookup_delete_eq|].
    apply (step_wake s g [] []). exact Hp.
Qed.

(** ** Matches that are not over *)

Lemma checkWinCondition_continue (g : Game.t) :
  ((checkWinCondition g).1 >? 0) = false →
  Game.Player1Pos g < MAX_STEPS ∧ Game.Player2Pos g < MAX_STEPS.
Proof.
  unfold checkWinCondition.
  destruct (Z.geb_spec (Game.Player1Pos g) MAX_STEPS); [discriminate|].
  destruct (Z.geb_spec (Game.Player2Pos g) MAX_STEPS); [discriminate|].
  intros _. split; assumption.
Qed.

Lemma storeBid_runningOK (user : string) (bid : Z) (g : Game.t) :
  0 ≤ bid ≤ balanceOf user g → runningOK g → runningOK (storeBid user bid g).
Proof.
  unfold runningOK, balanceOf, storeBid. intros Hbid Hok.
  case_decide; simpl; intros Hrun;
    destruct (Hok Hrun) as (B1 & B2 & P1 & P2 & Q1 & Q2);
    (split; [lia|]); (split; [lia|]); (split; [lia|]); (split; [lia|]);
    split; intros b Hb;
    first [apply Q1, Hb | apply Q2, Hb | injection Hb as <-; lia].
Qed.

Lemma resolved_runningOK (b1 b2 tnow : Z) (g : Game.t) :
  Game.Player1Bid g = Some b1 → Game.Player2Bid g = Some b2 →
  runningOK g → runningOK (resolved b1 b2 tnow g).
Proof.
  intros Hb1 Hb2 Hok. unfold resolved.
  destruct ((checkWinCondition (playRound b1 b2 g)).1 >? 0) eqn:Hw.
  - intros Hrun. discriminate Hrun.
  - apply checkWinCondition_continue in Hw. destruct Hw as [Hp1 Hp2].
    intros Hrun. simpl in Hrun.
    destruct (Hok Hrun) as (B1 & B2 & P1 & P2 & Q1 & Q2).
    specialize (Q1 b1 Hb1). specialize (Q2 b2 Hb2).
    unfold INITIAL_BUDGET, MAX_STEPS in *.
    simpl in Hp1, Hp2. simpl.
    rewrite !int_sub_exact by (unfold int_max; lia).
    destruct (b1 >? b2); [|destruct (b2 >? b1)];
      rewrite ?int_inc_exact in * by (unfold int_min, int_max; lia);
      (split; [lia|]); (split; [lia|]); (split; [lia|]); (split; [lia|]);
      split; intros b Hb; discriminate Hb.
Qed.

Lemma set_Status_runningOK (st : string) (g : Game.t) :
  runningOK g → runningOK (Game.set_Status st g).
Proof. unfold runningOK. simpl. tauto. Qed.

Lemma gamesOK_insert (h h' : Hub) (gp : string) (g : Game.t) :
  games h' = <[gp := g]> (games h) → runningOK g → gamesOK h → gamesOK h'.
Proof.
  unfold gamesOK. intros -> Hg Hh. apply map_Forall_insert_2; assumption.
Qed.

Lemma gamesOK_subseteq (h h' : Hub) : games h' ⊆ games h → gamesOK h → gamesOK h'.
Proof.
  unfold gamesOK. intros Hsub Hh gid g Hg. apply (Hh gid). eapply lookup_weaken; eassumption.
Qed.

Lemma handleSubmitBid_gamesOK (h : Hub) (user : string) (msg : Message.t) (env : Env) :
  gamesOK h → gamesOK (handleSubmitBid h user msg env).1.
Proof.
  intros Hh.
  destruct (games h !! Message.GameID msg) as [game|] eqn:Hg;
    [|rewrite (handleSubmitBid_unknown _ _ _ _ Hg); exact Hh].
  destruct (decide (involves user game)) as [Hin|Hout];
    [|rewrite (handleSubmitBid_stranger _ _ _ _ _ Hg Hout); exact Hh].
  destruct (decide (0 ≤ Message.Bid msg ≤ balanceOf user game)) as [Hok|Hbad];
    [|rewrite (handleSubmitBid_out_of_range _ _ _ _ _ Hg Hin Hbad); exact Hh].
  rewrite (handleSubmitBid_in_range _ _ _ _ _ Hg Hin Hok). cbv zeta.
  assert (Hstored : runningOK (storeBid user (Message.Bid msg) game))
    by (apply storeBid_runningOK; [exact Hok | exact (Hh _ _ Hg)]).
  destruct (Game.Player1Bid (storeBid user (Message.Bid msg) game)) as [b1|] eqn:E1;
    [destruct (Game.Player2Bid (storeBid user (Message.Bid msg) game)) as [b2|] eqn:E2|].
  - destruct (resolveRound_games h (Message.GameID msg)
                (Game.set_Status "RESOLVING" (storeBid user (Message.Bid msg) game))
                (now env) b1 b2 E1 E2) as (Hgs & _).
    eapply gamesOK_insert; [exact Hgs | | exact Hh].
    apply resolved_runningOK; [exact E1 | exact E2 |].
    apply set_Status_runningOK, Hstored.
  - eapply gamesOK_insert; [reflexivity | exact Hstored | exact Hh].
  - eapply gamesOK_insert; [reflexivity | exact Hstored | exact Hh].
Qed.

Lemma handleClientMessage_gamesOK
    (h : Hub) (user : string) (msg : Message.t) (env : Env) :
  gamesOK h → gamesOK (handleClientMessage h user msg env).1.
Proof.
  intros Hh. unfold handleClientMessage.
  repeat match goal with |- context [String.eqb ?a ?b] => destruct (String.eqb a b) end;
    try exact Hh.
  - unfold handleChallenge. case_decide; [|exact Hh].
    destruct (User.InGame _); [exact Hh|]. case_decide; exact Hh.
  - unfold handleAcceptChallenge.
    destruct (challenges h !! _); [|exact Hh]. case_decide; [|exact Hh].
    eapply gamesOK_insert; [reflexivity | | exact Hh].
    unfold runningOK, INITIAL_BUDGET, MAX_STEPS. simpl. intros _.
    (split; [lia|]); (split; [lia|]); (split; [lia|]); (split; [lia|]);
    split; intros b Hb; discriminate Hb.
  - unfold handleDeclineChallenge.
    destruct (challenges h !! _); [|exact Hh]. case_decide; exact Hh.
  - apply handleSubmitBid_gamesOK, Hh.
  - unfold handleRematch.
    destruct (games h !! _); [|exact Hh]. repeat case_decide; exact Hh.
  - unfold handleResign.
    destruct (games h !! Message.GameID msg) as [game|]; [|exact Hh].
    destruct (Game.GameOver game); [exact Hh|].
    repeat case_decide; try exact Hh;
      (eapply gamesOK_insert; [reflexivity | | exact Hh]);
      intros Hrun; discriminate Hrun.
Qed.

(** In every reachable state, every match that is not over is within
    the bounds of the data model. *)
Lemma running_match_bounds (s : Sys) : reachable s → gamesOK (hub s).
Proof.
  induction 1 as [|s s' Hs IH Hstep].
  - intros gid g Hg. simpl in Hg. rewrite lookup_empty in Hg. discriminate.
  - destruct Hstep as [s ev Hen|s g before after Hp]; simpl.
    + destruct ev as [userID username|user|user msg env|tnow]; simpl.
      * exact IH.
      * case_decide; [|exact IH].
        eapply gamesOK_subseteq; [apply map_filter_subseteq | exact IH].
      * apply handleClientMessage_gamesOK, IH.
      * exact IH.
    + destruct g. eapply gamesOK_subseteq; [apply delete_subseteq | exact IH].
Qed.

(** * Further properties of the handlers *)

(** ** The results of the win check *)

(** X1.  [checkWinCondition] returns winner 0 with the empty reason, or
    winner 1 or 2 with one of the two winning reasons, or winner 3 with
    the stalemate draw; a draw is only declared below [MAX_STEPS] with
    equal positions and both balances at zero; and the reason "No moves
    possible - draw" of the last test in the source is never returned. *)
Theorem checkWinCondition_results (g : Game.t) :
  let r := checkWinCondition g in
  (r = (0, "")
   ∨ r = (1, "Reached final step") ∨ r = (2, "Reached final step")
   ∨ r = (1, "Bankruptcy stalemate - higher position wins")
   ∨ r = (2, "Bankruptcy stalemate - higher position wins")
   ∨ r = (3, "Bankruptcy stalemate - draw"))
  ∧ r.2 ≠ "No moves possible - draw"
  ∧ (r.1 = 3 →
       Game.Player1Pos g = Game.Player2Pos g ∧ Game.Player1Pos g < MAX_STEPS
       ∧ Game.Player1Balance g = 0 ∧ Game.Player2Balance g = 0)
  ∧ (r.1 = 0 →
       Game.Player1Pos g < MAX_STEPS ∧ Game.Player2Pos g < MAX_STEPS
       ∧ ¬ (Game.Player1Balance g = 0 ∧ Game.Player2Balance g = 0)).
Proof.
  unfold checkWinCondition.
  destruct (Z.geb_spec (Game.Player1Pos g) MAX_STEPS);
    destruct (Z.geb_spec (Game.Player2Pos g) MAX_STEPS);
    destruct (Z.eqb_spec (Game.Player1Balance g) 0);
    destruct (Z.eqb_spec (Game.Player2Balance g) 0);
    destruct (Z.gtb_spec (Game.Player1Pos g) (Game.Player2Pos g));
    destruct (Z.gtb_spec (Game.Player2Pos g) (Game.Player1Pos g));
    rewrite ?andb_false_r; simpl;
    (split; [tauto|]); (split; [discriminate|]); split; intros Hw;
      first [discriminate Hw | repeat split; lia | tauto].
Qed.

Lemma checkWinCondition_results_witness :
  Game.Player1Pos (Game.mk "g" "A" "B" 1 3 "RESOLVING" 1 1 0 0 None None false 0 [] 0 0)
  = Game.Player2Pos (Game.mk "g" "A" "B" 1 3 "RESOLVING" 1 1 0 0 None None false 0 [] 0 0).
Proof.
  destruct (checkWinCondition_results
              (Game.mk "g" "A" "B" 1 3 "RESOLVING" 1 1 0 0 None None false 0 [] 0 0))
    as (_ & _ & Hdraw & _).
  apply Hdraw. reflexivity.
Defined.

(** ** Messages of a list of sends *)

Lemma sent_each {A : Type} (to : A → string) (m : A → Message.t) (l : list A) :
  sent (flat_map (λ x, sendToUser (to x) (m x)) l) = map (λ x, (to x, m x)) l.
Proof. induction l as [|x l IH]; simpl; [reflexivity|]. f_equal. exact IH. Qed.

Lemma spawned_sends_each {A : Type} (to : A → string) (m : A → Message.t) (l : list A) :
  spawned (flat_map (λ x, sendToUser (to x) (m x)) l) = [].
Proof. induction l as [|x l IH]; simpl; [reflexivity|exact IH]. Qed.

Lemma sent_broadcast_eq (h : Hub) :
  sent (broadcastUserList h)
  = map (λ p, (p, msg_users_update (map (λ q, userInfo (deref h q)) (elements (users h)))))
        (elements (users h)).
Proof. unfold broadcastUserList. apply (sent_each (λ p, p)). Qed.

(** ** Rematch requests *)

(** X2.  [handleRematch] never changes the hub and starts nothing.  For
    an unknown match or a user who is not one of its players it sends
    nothing; for a player it sends one [rematch_received], carrying the
    match id and the requester's id, to the other player. *)
Theorem handleRematch_spec (h : Hub) (user : string) (msg : Message.t) :
  (handleRematch h user msg).1 = h
  ∧ (games h !! Message.GameID msg = None → (handleRematch h user msg).2 = [])
  ∧ (∀ game : Game.t, games h !! Message.GameID msg = Some game →
       (¬ involves user game → (handleRematch h user msg).2 = [])
       ∧ (involves user game →
            (handleRematch h user msg).2
            = [Send (opponentOf user game)
                 (msg_rematch_received (Message.GameID msg) user)])).
Proof.
  unfold handleRematch, involves, opponentOf.
  destruct (games h !! Message.GameID msg) as [game|].
  - split; [repeat case_decide; reflexivity|]. split; [discriminate|].
    intros g [= <-]. split; intros Hin; repeat case_decide; try tauto; reflexivity.
  - split; [reflexivity|]. split; [reflexivity|]. discriminate.
Qed.

Lemma handleRematch_spec_witness :
  (handleRematch oneGameHub "B" (bidMsg "g1" 0)).2
  = [Send "A" (msg_rematch_received "g1" "B")].
Proof.
  destruct (handleRematch_spec oneGameHub "B" (bidMsg "g1" 0)) as (_ & _ & Hgame).
  destruct (Hgame freshGame eq_refl) as [_ Hin].
  apply Hin. right. reflexivity.
Defined.

(** ** Accepting, declining and creating challenges *)

(** X3.  [handleAcceptChallenge] does nothing and sends nothing when the
    challenge id is unknown or the user is not the challenge's recipient.
    Otherwise it stores a new match under the fresh id (challenger as
    player one, recipient as player two, round 1, balances 20/20, positions
    0/0, no bids, not over), removes the challenge, sets [InGame] and the
    match id on both users' objects and on no other, leaves the live users
    as they are, and sends [game_start] with side 1 to the challenger and
    side 2 to the recipient, then the first [waiting_for_bids] to both,
    then the user list; it starts no goroutine. *)
Theorem handleAcceptChallenge_spec
    (h : Hub) (user : string) (msg : Message.t) (env : Env) :
  let r := handleAcceptChallenge h user msg env in
  (challenges h !! Message.ChallengeID msg = None → r = (h, []))
  ∧ (∀ c : Challenge.t, challenges h !! Message.ChallengeID msg = Some c →
       (Challenge.ToUser c ≠ user → r = (h, []))
       ∧ (Challenge.ToUser c = user →
            games r.1 = <[uuid env := newGame c env]> (games h)
            ∧ challenges r.1 = delete (Message.ChallengeID msg) (challenges h)
            ∧ users r.1 = users h
            ∧ (∀ p, objs r.1 !! p =
                    if decide (p = Challenge.FromUser c ∨ p = Challenge.ToUser c)
                    then User.set_InGame true (uuid env) <$> objs h !! p
                    else objs h !! p)
            ∧ sent r.2 =
                [ (Challenge.FromUser c,
                   msg_game_start (uuid env) (User.ID (deref h (Challenge.ToUser c)))
                     (User.Username (deref h (Challenge.ToUser c))) 1);
                  (Challenge.ToUser c,
                   msg_game_start (uuid env) (User.ID (deref h (Challenge.FromUser c)))
                     (User.Username (deref h (Challenge.FromUser c))) 2);
                  (Challenge.FromUser c, msg_waiting_for_bids (newGame c env));
                  (Challenge.ToUser c, msg_waiting_for_bids (newGame c env)) ]
                ++ sent (broadcastUserList r.1)
            ∧ spawned r.2 = [])).
Proof.
  intros r. subst r. unfold handleAcceptChallenge.
  destruct (challenges h !! Message.ChallengeID msg) as [c0|].
  - split; [discriminate|]. intros c [= <-]. split.
    + intros Hne. rewrite decide_False by exact Hne. reflexivity.
    + intros Heq. rewrite decide_True by exact Heq. cbv zeta.
      split; [reflexivity|]. split; [reflexivity|]. split; [reflexivity|].
      split; [|split].
      * intros p. simpl. rewrite !lookup_alter.
        repeat case_decide; subst;
          first [ reflexivity
                | destruct (objs h !! _); reflexivity
                | match goal with H : Challenge.FromUser _ = _ |- _ => rewrite H end;
                  destruct (objs h !! _); reflexivity
                | exfalso; intuition congruence ].
      * simpl. reflexivity.
      * simpl. apply spawned_broadcast.
  - split; [reflexivity|]. discriminate.
Qed.

Lemma handleAcceptChallenge_spec_witness :
  games (handleAcceptChallenge (hub challenged) "B" (acceptMsg "c1") (mkEnv "g1" 20)).1
  = <["g1" := newGame (Challenge.mk "c1" "A" "B" 10) (mkEnv "g1" 20)]>
      (games (hub challenged)).
Proof.
  destruct (handleAcceptChallenge_spec (hub challenged) "B" (acceptMsg "c1")
              (mkEnv "g1" 20)) as [_ Hc].
  destruct (Hc (Challenge.mk "c1" "A" "B" 10) eq_refl) as [_ Hok].
  destruct (Hok eq_refl) as (Hg & _). exact Hg.
Defined.

(** X4.  [handleDeclineChallenge] does nothing and sends nothing when the
    challenge id is unknown or the user is not the recipient.  Otherwise
    it removes that challenge and no other, touches neither users nor
    matches, and sends one [challenge_declined] to the challenger. *)
Theorem handleDeclineChallenge_spec (h : Hub) (user : string) (msg : Message.t) :
  let r := handleDeclineChallenge h user msg in
  (challenges h !! Message.ChallengeID msg = None → r = (h, []))
  ∧ (∀ c : Challenge.t, challenges h !! Message.ChallengeID msg = Some c →
       (Challenge.ToUser c ≠ user → r = (h, []))
       ∧ (Challenge.ToUser c = user →
            challenges r.1 = delete (Message.ChallengeID msg) (challenges h)
            ∧ objs r.1 = objs h ∧ users r.1 = users h ∧ games r.1 = games h
            ∧ r.2 = [Send (Challenge.FromUser c)
                       (msg_challenge_declined (Message.ChallengeID msg))])).
Proof.
  intros r. subst r. unfold handleDeclineChallenge.
  destruct (challenges h !! Message.ChallengeID msg) as [c0|].
  - split; [discriminate|]. intros c [= <-]. split.
    + intros Hne. rewrite decide_False by exact Hne. reflexivity.
    + intros Heq. rewrite decide_True by exact Heq. repeat split.
  - split; [reflexivity|]. discriminate.
Qed.

Lemma handleDeclineChallenge_spec_witness :
  (handleDeclineChallenge (hub challenged) "B" (acceptMsg "c1")).2
  = [Send "A" (msg_challenge_declined "c1")].
Proof.
  destruct (handleDeclineChallenge_spec (hub challenged) "B" (acceptMsg "c1")) as [_ Hc].
  destruct (Hc (Challenge.mk "c1" "A" "B" 10) eq_refl) as [_ Hok].
  destruct (Hok eq_refl) as (_ & _ & _ & _ & Hs). exact Hs.
Defined.

(** X5.  [handleChallenge] drops a challenge to a user who is not live:
    no change, no message, not even an error.  For a live target that is
    not in a game and has no pending challenge from this sender, it stores
    one challenge under the fresh id, with sender, recipient and the
    current time, changes nothing else, and notifies the recipient alone
    with the sender's id and name. *)
Theorem handleChallenge_spec (h : Hub) (from : string) (msg : Message.t) (env : Env) :
  let r := handleChallenge h from msg env in
  let to := Message.TargetUserID msg in
  (to ∉ users h → r = (h, []))
  ∧ (to ∈ users h → User.InGame (deref h to) = false →
     (∀ (cid : string) (c : Challenge.t), challenges h !! cid = Some c →
        ¬ (Challenge.FromUser c = from ∧ Challenge.ToUser c = to)) →
       challenges r.1
       = <[uuid env := Challenge.mk (uuid env) from to (now env)]> (challenges h)
       ∧ objs r.1 = objs h ∧ users r.1 = users h ∧ games r.1 = games h
       ∧ r.2 = [Send to (msg_challenge_received (uuid env) from
                           (User.Username (deref h from)))]).
Proof.
  intros r to. subst r to. unfold handleChallenge. split.
  - intros Hdead. rewrite decide_False by exact Hdead. reflexivity.
  - intros Hlive Hfree Hnew. rewrite decide_True by exact Hlive. rewrite Hfree.
    rewrite decide_False; [repeat split|].
    intros (cid & c & Hc & Hsame). exact (Hnew cid c Hc Hsame).
Qed.

Lemma handleChallenge_spec_witness :
  (handleChallenge (hub challenged) "B" (challengeMsg "A") (mkEnv "c2" 11)).2
  = [Send "A" (msg_challenge_received "c2" "B" (User.Username (deref (hub challenged) "B")))].
Proof.
  destruct (handleChallenge_spec (hub challenged) "B" (challengeMsg "A") (mkEnv "c2" 11))
    as [_ Hok].
  destruct Hok as (_ & _ & _ & _ & Hs).
  - apply (bool_decide_unpack _). vm_compute. exact I.
  - reflexivity.
  - intros cid c Hc [Hf Ht].
    assert (Hall : map_Forall (λ _ d, Challenge.FromUser d ≠ "B")
                     (challenges (hub challenged)))
      by (apply (bool_decide_unpack _); vm_compute; exact I).
    exact (Hall cid c Hc Hf).
  - exact Hs.
Defined.

(** ** The expiry sweep *)

(** X6.  [checkExpiredChallenges] keeps exactly the challenges that are
    at most [CHALLENGE_EXPIRY] seconds old (one of exactly 60 s stays) and
    touches neither users nor matches.  The messages it sends are one
    [challenge_expired] per removed challenge, to its sender, carrying the
    challenge id and the recipient's name; it starts no goroutine. *)
Theorem checkExpiredChallenges_spec (h : Hub) (tnow : Z) :
  let r := checkExpiredChallenges h tnow in
  objs r.1 = objs h ∧ users r.1 = users h ∧ games r.1 = games h
  ∧ (∀ (cid : string) (c : Challenge.t),
       challenges r.1 !! cid = Some c
       ↔ challenges h !! cid = Some c
         ∧ tnow - Challenge.Timestamp c ≤ CHALLENGE_EXPIRY * time_Second)
  ∧ (∀ (to : string) (m : Message.t),
       (to, m) ∈ sent r.2
       ↔ ∃ (cid : string) (c : Challenge.t),
           challenges h !! cid = Some c
           ∧ tnow - Challenge.Timestamp c > CHALLENGE_EXPIRY * time_Second
           ∧ to = Challenge.FromUser c
           ∧ m = msg_challenge_expired cid
                   (User.Username (deref h (Challenge.ToUser c))))
  ∧ length (sent r.2) = size (filter (λ kv, expired tnow kv.2) (challenges h))
  ∧ spawned r.2 = [].
Proof.
  intros r. subst r. unfold checkExpiredChallenges. simpl.
  split; [reflexivity|]. split; [reflexivity|]. split; [reflexivity|].
  split; [|split; [|split]].
  - intros cid c. rewrite map_lookup_filter_Some. unfold expired. simpl.
    split; intros [Hc Hage]; (split; [exact Hc|]); lia.
  - intros to m.
    rewrite (sent_each (λ kv : string * Challenge.t, Challenge.FromUser kv.2)
               (λ kv, msg_challenge_expired kv.1
                        (User.Username (deref h (Challenge.ToUser kv.2))))).
    rewrite list_elem_of_fmap. split.
    + intros ([cid c] & Heq & Hin). simpl in Heq. injection Heq as -> ->.
      apply elem_of_map_to_list in Hin. apply map_lookup_filter_Some in Hin.
      destruct Hin as [Hc Hexp]. exists cid, c. repeat split; assumption.
    + intros (cid & c & Hc & Hexp & -> & ->). exists (cid, c). split; [reflexivity|].
      apply elem_of_map_to_list. apply map_lookup_filter_Some. split; assumption.
  - rewrite (sent_each (λ kv : string * Challenge.t, Challenge.FromUser kv.2)
               (λ kv, msg_challenge_expired kv.1
                        (User.Username (deref h (Challenge.ToUser kv.2))))).
    rewrite length_map. apply length_map_to_list.
  - apply (spawned_sends_each (λ kv : string * Challenge.t, Challenge.FromUser kv.2)).
Qed.

(** ** Disconnection *)

Lemma foldr_alter_lookup {A : Type} (f : User.t → User.t) (k : A → string)
    (l : list A) (o : gmap string User.t) (p : string) :
  (∀ u, f (f u) = f u) →
  foldr (λ x acc, alter f (k x) acc) o l !! p
  = if decide (p ∈ map k l) then f <$> o !! p else o !! p.
Proof.
  intros Hidem. induction l as [|x l IH].
  - simpl foldr. case_decide as Hin; [inversion Hin|reflexivity].
  - simpl foldr. change (map k (x :: l)) with (k x :: map k l).
    assert (Hcons : p ∈ k x :: map k l ↔ k x = p ∨ p ∈ map k l).
    { rewrite elem_of_cons. split; intros [Hx|Hx]; auto. }
    destruct (decide (k x = p)) as [Heq|Hne].
    + rewrite Heq, lookup_alter_eq, IH.
      rewrite (decide_True (P := p ∈ p :: map k l)) by (apply elem_of_cons; auto).
      case_decide; [|reflexivity].
      destruct (o !! p); simpl; [rewrite Hidem|]; reflexivity.
    + rewrite lookup_alter_ne by exact Hne. rewrite IH.
      repeat case_decide; try reflexivity; exfalso; tauto.
Qed.

Lemma sent_flat_map_if {A : Type} (P : A → Prop) `{∀ a, Decision (P a)}
    (to : A → string) (m : A → Message.t) (l : list A) (x : string * Message.t) :
  x ∈ sent (flat_map (λ a, if decide (P a) then sendToUser (to a) (m a) else []) l)
  ↔ ∃ a, a ∈ l ∧ P a ∧ x = (to a, m a).
Proof.
  induction l as [|a l IH]; simpl.
  - split; [intros Hx; inversion Hx|intros (a & Ha & _); inversion Ha].
  - rewrite sent_app, elem_of_app, IH. split.
    + intros [Hx|(b & Hb & HP & Hx)].
      * case_decide as HP; simpl in Hx; [|inversion Hx].
        apply list_elem_of_singleton in Hx.
        exists a. split; [apply elem_of_cons; left; reflexivity|]. split; assumption.
      * exists b. split; [apply elem_of_cons; right; exact Hb|]. split; assumption.
    + intros (b & Hb & HP & Hx). apply elem_of_cons in Hb as [->|Hb].
      * left. rewrite decide_True by exact HP. simpl.
        apply list_elem_of_singleton. exact Hx.
      * right. exists b. split; [exact Hb|]. split; assumption.
Qed.

Lemma spawned_flat_map_if {A : Type} (P : A → Prop) `{∀ a, Decision (P a)}
    (to : A → string) (m : A → Message.t) (l : list A) :
  spawned (flat_map (λ a, if decide (P a) then sendToUser (to a) (m a) else []) l) = [].
Proof.
  induction l as [|a l IH]; simpl; [reflexivity|].
  rewrite spawned_app, IH. case_decide; reflexivity.
Qed.

(** X7.  After [handleDisconnect] the user is no longer live, the matches
    left are exactly those the user is not a player of, and the challenges
    left are exactly those the user is no party of.  The only write to a
    user object is [InGame = false] on the opponent of each of the user's
    matches that is not over (the opponent's [GameID] is not cleared).  The
    messages are: one [opponent_disconnected] to the opponent of each such
    match (none for a match that is over), one [challenge_expired] to the
    recipient of each challenge the user had sent (none to the sender of a
    challenge the user had received), and then the user list. *)
Theorem handleDisconnect_spec (h : Hub) (user : string) :
  let r := handleDisconnect h user in
  users r.1 = users h ∖ {[user]}
  ∧ (∀ gid g, games r.1 !! gid = Some g ↔ games h !! gid = Some g ∧ ¬ involves user g)
  ∧ (∀ cid c,
       challenges r.1 !! cid = Some c ↔ challenges h !! cid = Some c ∧ ¬ party user c)
  ∧ (∀ gid g, runningWith h user gid g →
       objs r.1 !! opponentOf user g
       = User.set_InGame_only false <$> objs h !! opponentOf user g)
  ∧ (∀ p, (∀ gid g, runningWith h user gid g → opponentOf user g ≠ p) →
       objs r.1 !! p = objs h !! p)
  ∧ (∃ e1 e2 : list (string * Message.t),
       sent r.2 = e1 ++ e2 ++ sent (broadcastUserList r.1)
       ∧ (∀ x, x ∈ e1 ↔ ∃ gid g, runningWith h user gid g
                          ∧ x = (opponentOf user g, msg_opponent_disconnected gid))
       ∧ (∀ x, x ∈ e2 ↔ ∃ cid c, challenges h !! cid = Some c
                          ∧ Challenge.FromUser c = user
                          ∧ x = (Challenge.ToUser c,
                                 msg_challenge_expired cid
                                   (User.Username (deref h (Challenge.ToUser c))))))
  ∧ spawned r.2 = [].
Proof.
  intros r. subst r. unfold handleDisconnect. cbv zeta.
  set (mine := map_to_list (filter (λ kv, involves user kv.2) (games h))).
  set (running := filter (λ kv : string * Game.t, Game.GameOver kv.2 = false) mine).
  assert (Hrun : ∀ gid g, (gid, g) ∈ running ↔ runningWith h user gid g).
  { intros gid g. subst running mine. unfold runningWith.
    rewrite list_elem_of_filter, elem_of_map_to_list, map_lookup_filter_Some. simpl.
    tauto. }
  simpl. split; [reflexivity|].
  split; [intros gid g; apply map_lookup_filter_Some|].
  split; [intros cid c; apply map_lookup_filter_Some|].
  assert (Hidem : ∀ u, User.set_InGame_only false (User.set_InGame_only false u)
                       = User.set_InGame_only false u) by reflexivity.
  split; [|split; [|split]].
  - intros gid g Hg.
    rewrite (foldr_alter_lookup _ (λ kv : string * Game.t, opponentOf user kv.2)
               running _ _ Hidem).
    rewrite decide_True; [reflexivity|].
    apply list_elem_of_fmap. exists (gid, g). split; [reflexivity|]. apply Hrun, Hg.
  - intros p Hp.
    rewrite (foldr_alter_lookup _ (λ kv : string * Game.t, opponentOf user kv.2)
               running _ _ Hidem).
    rewrite decide_False; [reflexivity|].
    intros Hin. apply list_elem_of_fmap in Hin as ([gid g] & -> & Hin).
    apply Hrun in Hin. exact (Hp gid g Hin eq_refl).
  - eexists _, _. rewrite !sent_app. split; [reflexivity|]. split.
    + intros x.
      rewrite (sent_each (λ kv : string * Game.t, opponentOf user kv.2)
                 (λ kv, msg_opponent_disconnected kv.1)).
      rewrite list_elem_of_fmap. split.
      * intros ([gid g] & -> & Hin). exists gid, g. split; [apply Hrun, Hin|reflexivity].
      * intros (gid & g & Hg & ->). exists (gid, g). split; [reflexivity|apply Hrun, Hg].
    + intros x.
      rewrite (sent_flat_map_if (λ kv : string * Challenge.t, Challenge.FromUser kv.2 = user)
                 (λ kv, Challenge.ToUser kv.2)
                 (λ kv, msg_challenge_expired kv.1
                          (User.Username (deref h (Challenge.ToUser kv.2))))).
      split.
      * intros ([cid c] & Hin & Hfrom & ->).
        apply elem_of_map_to_list, map_lookup_filter_Some in Hin.
        exists cid, c. split; [apply Hin|]. split; [exact Hfrom|reflexivity].
      * intros (cid & c & Hc & Hfrom & ->). exists (cid, c).
        split; [|split; [exact Hfrom|reflexivity]].
        apply elem_of_map_to_list, map_lookup_filter_Some. split; [exact Hc|].
        left. exact Hfrom.
  - rewrite !spawned_app.
    rewrite (spawned_sends_each (λ kv : string * Game.t, opponentOf user kv.2)
               (λ kv, msg_opponent_disconnected kv.1)).
    rewrite spawned_broadcast. simpl. rewrite app_nil_r.
    apply (spawned_flat_map_if
             (λ kv : string * Challenge.t, Challenge.FromUser kv.2 = user)).
Qed.

Lemma handleDisconnect_spec_witness :
  objs (handleDisconnect (hub (run newSys lobby)) "A").1 !! "B"
  = User.set_InGame_only false <$> objs (hub (run newSys lobby)) !! "B".
Proof.
  destruct (handleDisconnect_spec (hub (run newSys lobby)) "A")
    as (_ & _ & _ & Hopp & _).
  apply (Hopp "g1" (newGame (Challenge.mk "c1" "A" "B" 10) (mkEnv "g1" 20))).
  split; [reflexivity|]. split; [left; reflexivity|reflexivity].
Defined.

(** ** Connection and the user list *)

(** X8.  [handleConnect] adds the new user to the live users with a
    fresh object (not in a game), touches no challenge and no match, and
    sends the [welcome] to the new user first.  After it, every live user,
    the new one included, is sent exactly one [users_update]; all of them
    carry the same list, which has one entry per live user and shows the
    new user as not in a game. *)
Theorem handleConnect_spec (h : Hub) (userID username : string) :
  let r := handleConnect h userID username in
  users r.1 = {[userID]} ∪ users h
  ∧ objs r.1 = <[userID := User.mk userID username false ""]> (objs h)
  ∧ challenges r.1 = challenges h ∧ games r.1 = games h
  ∧ (∃ (infos : list UserInfo.t) (recipients : list string),
       sent r.2 = (userID, msg_welcome userID username)
                    :: map (λ p, (p, msg_users_update infos)) recipients
       ∧ NoDup recipients
       ∧ (∀ p, p ∈ recipients ↔ p ∈ users r.1)
       ∧ length infos = size (users r.1)
       ∧ (∀ p, p ∈ users r.1 → userInfo (deref r.1 p) ∈ infos)
       ∧ UserInfo.mk userID username false ∈ infos)
  ∧ spawned r.2 = [].
Proof.
  intros r. subst r. unfold handleConnect. cbv zeta.
  set (h' := mkHub _ _ _ _).
  split; [reflexivity|]. split; [reflexivity|]. split; [reflexivity|].
  split; [reflexivity|]. split.
  - exists (map (λ q, userInfo (deref h' q)) (elements (users h'))),
           (elements (users h')).
    split; [simpl; rewrite sent_broadcast_eq; reflexivity|].
    split; [apply NoDup_elements|].
    split; [intros p; apply elem_of_elements|].
    split; [rewrite length_map; reflexivity|].
    assert (Hin : ∀ p, p ∈ users h' →
                    userInfo (deref h' p)
                    ∈ map (λ q, userInfo (deref h' q)) (elements (users h'))).
    { intros p Hp. apply list_elem_of_fmap. exists p. split; [reflexivity|].
      apply elem_of_elements, Hp. }
    split; [exact Hin|].
    assert (Hnew : userInfo (deref h' userID) = UserInfo.mk userID username false).
    { unfold deref. subst h'. simpl. rewrite lookup_insert_eq. reflexivity. }
    rewrite <- Hnew. apply Hin. subst h'. simpl. set_solver.
  - simpl. apply spawned_broadcast.
Qed.

(** ** Dispatch *)

Lemma handleClientMessage_frame
    (h : Hub) (user : string) (msg : Message.t) (env : Env) :
  users (handleClientMessage h user msg env).1 = users h.
Proof.
  unfold handleClientMessage.
  repeat match goal with |- context [String.eqb ?a ?b] => destruct (String.eqb a b) end;
    try reflexivity.
  - unfold handleChallenge. case_decide; [|reflexivity].
    destruct (User.InGame _); [reflexivity|]. case_decide; reflexivity.
  - unfold handleAcceptChallenge.
    destruct (challenges h !! _); [|reflexivity]. case_decide; reflexivity.
  - unfold handleDeclineChallenge.
    destruct (challenges h !! _); [|reflexivity]. case_decide; reflexivity.
  - apply handleSubmitBid_frame.
  - unfold handleRematch.
    destruct (games h !! _); [|reflexivity]. repeat case_decide; reflexivity.
  - apply handleResign_frame.
Qed.

(** X9.  Only connections and disconnections change who is live: a
    client message of any type, a tick and the waking of a removal
    goroutine leave the set of live users as it is; and a message whose
    type is none of the six handled ones changes nothing at all and sends
    nothing. *)
Theorem live_users_change_only_on_connect :
  (∀ (h : Hub) (user : string) (msg : Message.t) (env : Env),
     users (hubStep h (ClientMessage user msg env)).1 = users h)
  ∧ (∀ (h : Hub) (tnow : Z), users (hubStep h (Tick tnow)).1 = users h)
  ∧ (∀ (h : Hub) (g : Goroutine), users (runGoroutine g h) = users h)
  ∧ (∀ (h : Hub) (user : string) (msg : Message.t) (env : Env),
       ¬ knownType (Message.Type_ msg) →
       hubStep h (ClientMessage user msg env) = (h, [])).
Proof.
  split; [intros; apply handleClientMessage_frame|].
  split; [reflexivity|]. split; [intros h []; reflexivity|].
  intros h user msg env Hty. simpl. unfold handleClientMessage, knownType in *.
  repeat match goal with
         | |- context [String.eqb ?a ?b] =>
           destruct (String.eqb_spec a b); [exfalso; tauto|]
         end.
  reflexivity.
Qed.

Lemma live_users_change_only_on_connect_witness :
  hubStep oneGameHub
    (ClientMessage "A" (Message.mk "status" "" "" "" "" "g1" "" "" "" "" 0 0 []
                          0 0 0 0 0 0 0 0 "" "") (mkEnv "u" 5))
  = (oneGameHub, []).
Proof.
  destruct live_users_change_only_on_connect as (_ & _ & _ & Hunknown).
  apply Hunknown. simpl. unfold knownType.
  intros [H|[H|[H|[H|[H|H]]]]]; discriminate H.
Defined.

(** ** How one step changes users' objects and matches *)

Lemma sameIdentity_refl (o : gmap string User.t) : sameIdentity o o.
Proof. intros p. destruct (o !! p); constructor. split; reflexivity. Qed.

Lemma sameIdentity_trans (o1 o2 o3 : gmap string User.t) :
  sameIdentity o1 o2 → sameIdentity o2 o3 → sameIdentity o1 o3.
Proof.
  intros H12 H23 p. specialize (H12 p). specialize (H23 p).
  destruct H12 as [u1 u2 [Ha Hb]|]; inversion H23 as [u2' u3 [Hc Hd]|]; subst;
    constructor. split; congruence.
Qed.

Lemma sameIdentity_alter (f : User.t → User.t) (k : string) (o : gmap string User.t) :
  (∀ u, User.ID (f u) = User.ID u ∧ User.Username (f u) = User.Username u) →
  sameIdentity o (alter f k o).
Proof.
  intros Hf p.
  destruct (decide (k = p)) as [->|Hne];
    [rewrite lookup_alter_eq | rewrite lookup_alter_ne by exact Hne];
    destruct (o !! p); simpl; constructor;
    first [apply Hf | split; reflexivity].
Qed.

Lemma sameIdentity_alter2 (f : User.t → User.t) (k1 k2 : string) (o : gmap string User.t) :
  (∀ u, User.ID (f u) = User.ID u ∧ User.Username (f u) = User.Username u) →
  sameIdentity o (alter f k2 (alter f k1 o)).
Proof.
  intros Hf. eapply sameIdentity_trans; apply sameIdentity_alter; exact Hf.
Qed.

Lemma sameIdentity_foldr {A : Type} (f : User.t → User.t) (k : A → string)
    (l : list A) (o : gmap string User.t) :
  (∀ u, User.ID (f u) = User.ID u ∧ User.Username (f u) = User.Username u) →
  sameIdentity o (foldr (λ x acc, alter f (k x) acc) o l).
Proof.
  intros Hf. induction l as [|x l IH]; simpl; [apply sameIdentity_refl|].
  eapply sameIdentity_trans; [exact IH|]. apply sameIdentity_alter, Hf.
Qed.

Lemma evolves_refl (g : Game.t) : evolves g g.
Proof. repeat split; reflexivity. Qed.

Lemma evolves_storeBid (user : string) (bid : Z) (g : Game.t) :
  evolves g (storeBid user bid g).
Proof. unfold storeBid. case_decide; repeat split; reflexivity. Qed.

Lemma evolves_resolved (b1 b2 tnow : Z) (st : string) (user : string) (bid : Z)
    (g : Game.t) :
  evolves g (resolved b1 b2 tnow (Game.set_Status st (storeBid user bid g))).
Proof.
  unfold resolved, storeBid.
  case_decide; destruct (_ >? 0); simpl; repeat split; simpl;
    try reflexivity; apply prefix_app_r; reflexivity.
Qed.

Lemma resolveRound_objs (h : Hub) (gp : string) (game : Game.t) (tnow : Z) :
  sameIdentity (objs h) (objs (resolveRound h gp game tnow).1).
Proof.
  unfold resolveRound.
  destruct (Game.Player1Bid game) as [b1|]; [|apply sameIdentity_refl].
  destruct (Game.Player2Bid game) as [b2|]; [|apply sameIdentity_refl].
  destruct (if b1 >? b2 then _ else _) as [[p1 p2] tag].
  destruct (checkWinCondition _) as [winner reason].
  destruct (winner >? 0); simpl; [|apply sameIdentity_refl].
  apply sameIdentity_alter2. intros u. split; reflexivity.
Qed.

Lemma handleClientMessage_objs
    (h : Hub) (user : string) (msg : Message.t) (env : Env) :
  sameIdentity (objs h) (objs (handleClientMessage h user msg env).1).
Proof.
  unfold handleClientMessage.
  repeat match goal with |- context [String.eqb ?a ?b] => destruct (String.eqb a b) end;
    try apply sameIdentity_refl.
  - unfold handleChallenge. case_decide; [|apply sameIdentity_refl].
    destruct (User.InGame _); [apply sameIdentity_refl|].
    case_decide; apply sameIdentity_refl.
  - unfold handleAcceptChallenge.
    destruct (challenges h !! _); [|apply sameIdentity_refl].
    case_decide; [|apply sameIdentity_refl].
    simpl. apply sameIdentity_alter2. intros u. split; reflexivity.
  - unfold handleDeclineChallenge.
    destruct (challenges h !! _); [|apply sameIdentity_refl].
    case_decide; apply sameIdentity_refl.
  - unfold handleSubmitBid.
    destruct (games h !! Message.GameID msg) as [game|]; [|apply sameIdentity_refl].
    repeat case_decide; try apply sameIdentity_refl;
      (destruct (Message.Bid msg <? 0); [apply sameIdentity_refl|];
       destruct (Message.Bid msg >? _); [apply sameIdentity_refl|]; simpl;
       repeat match goal with
              | |- context [match ?o with Some _ => _ | None => _ end] => destruct o
              end;
       first [apply resolveRound_objs | apply sameIdentity_refl]).
  - unfold handleRematch.
    destruct (games h !! _); [|apply sameIdentity_refl].
    repeat case_decide; apply sameIdentity_refl.
  - unfold handleResign.
    destruct (games h !! Message.GameID msg) as [game|]; [|apply sameIdentity_refl].
    destruct (Game.GameOver game); [apply sameIdentity_refl|].
    repeat case_decide; try apply sameIdentity_refl;
      simpl; apply sameIdentity_alter2; intros u; split; reflexivity.
Qed.

(** Where a match found after a client message comes from: it is a later
    state of the match that was under the same key, or it is the match just
    created by an accepted challenge, under the fresh id. *)
Lemma handleClientMessage_games
    (h : Hub) (user : string) (msg : Message.t) (env : Env) (gid : string) (g' : Game.t) :
  games (handleClientMessage h user msg env).1 !! gid = Some g' →
  (∃ g, games h !! gid = Some g ∧ evolves g g')
  ∨ (gid = uuid env
     ∧ ∃ c, challenges h !! Message.ChallengeID msg = Some c
            ∧ Challenge.ToUser c = user ∧ g' = newGame c env).
Proof.
  assert (Hsame : ∀ h', games h' = games h → games h' !! gid = Some g' →
            (∃ g, games h !! gid = Some g ∧ evolves g g')
            ∨ (gid = uuid env
               ∧ ∃ c, challenges h !! Message.ChallengeID msg = Some c
                      ∧ Challenge.ToUser c = user ∧ g' = newGame c env)).
  { intros h' -> Hg. left. exists g'. split; [exact Hg|apply evolves_refl]. }
  assert (Hins : ∀ h' g0 g1, games h !! Message.GameID msg = Some g0 → evolves g0 g1 →
            games h' = <[Message.GameID msg := g1]> (games h) →
            games h' !! gid = Some g' →
            (∃ g, games h !! gid = Some g ∧ evolves g g')
            ∨ (gid = uuid env
               ∧ ∃ c, challenges h !! Message.ChallengeID msg = Some c
                      ∧ Challenge.ToUser c = user ∧ g' = newGame c env)).
  { intros h' g0 g1 Hg0 Hev -> Hg. left.
    destruct (decide (Message.GameID msg = gid)) as [<-|Hne].
    - rewrite lookup_insert_eq in Hg. injection Hg as <-. exists g0. split; assumption.
    - rewrite lookup_insert_ne in Hg by exact Hne. exists g'.
      split; [exact Hg|apply evolves_refl]. }
  unfold handleClientMessage.
  repeat match goal with |- context [String.eqb ?a ?b] => destruct (String.eqb a b) end;
    try (apply Hsame; reflexivity).
  - apply Hsame. unfold handleChallenge. case_decide; [|reflexivity].
    destruct (User.InGame _); [reflexivity|]. case_decide; reflexivity.
  - unfold handleAcceptChallenge.
    destruct (challenges h !! Message.ChallengeID msg) as [c|] eqn:Hc;
      [|apply Hsame; reflexivity].
    case_decide as Hto; [|apply Hsame; reflexivity].
    simpl. intros Hg. destruct (decide (uuid env = gid)) as [<-|Hne].
    + rewrite lookup_insert_eq in Hg. injection Hg as <-. right.
      split; [reflexivity|]. exists c. repeat split; assumption.
    + rewrite lookup_insert_ne in Hg by exact Hne. left. exists g'.
      split; [exact Hg|apply evolves_refl].
  - apply Hsame. unfold handleDeclineChallenge.
    destruct (challenges h !! _); [|reflexivity]. case_decide; reflexivity.
  - destruct (games h !! Message.GameID msg) as [game|] eqn:Hg;
      [|rewrite (handleSubmitBid_unknown _ _ _ _ Hg); apply Hsame; reflexivity].
    destruct (decide (involves user game)) as [Hin|Hout];
      [|rewrite (handleSubmitBid_stranger _ _ _ _ _ Hg Hout); apply Hsame; reflexivity].
    destruct (decide (0 ≤ Message.Bid msg ≤ balanceOf user game)) as [Hok|Hbad];
      [|rewrite (handleSubmitBid_out_of_range _ _ _ _ _ Hg Hin Hbad);
        apply Hsame; reflexivity].
    rewrite (handleSubmitBid_in_range _ _ _ _ _ Hg Hin Hok). cbv zeta.
    destruct (Game.Player1Bid (storeBid user (Message.Bid msg) game)) as [b1|] eqn:E1;
      [destruct (Game.Player2Bid (storeBid user (Message.Bid msg) game)) as [b2|] eqn:E2|].
    + destruct (resolveRound_games h (Message.GameID msg)
                  (Game.set_Status "RESOLVING" (storeBid user (Message.Bid msg) game))
                  (now env) b1 b2 E1 E2) as (Hgs & _).
      apply (Hins _ game _ eq_refl (evolves_resolved _ _ _ _ _ _ _) Hgs).
    + apply (Hins _ game _ eq_refl (evolves_storeBid user (Message.Bid msg) game)).
      reflexivity.
    + apply (Hins _ game _ eq_refl (evolves_storeBid user (Message.Bid msg) game)).
      reflexivity.
  - apply Hsame. unfold handleRematch.
    destruct (games h !! Message.GameID msg); [|reflexivity].
    repeat case_decide; reflexivity.
  - unfold handleResign.
    destruct (games h !! Message.GameID msg) as [game|] eqn:Hg;
      [|apply Hsame; reflexivity].
    destruct (Game.GameOver game); [apply Hsame; reflexivity|].
    repeat case_decide; try (apply Hsame; reflexivity);
      first [ solve [apply (Hins _ game (Game.set_over 2 (now env) game) eq_refl);
                     [repeat split; reflexivity | reflexivity]]
            | solve [apply (Hins _ game (Game.set_over 1 (now env) game) eq_refl);
                     [repeat split; reflexivity | reflexivity]] ].
Qed.

(** ** Well-formed hubs *)

Lemma sameIdentity_is_Some (o o' : gmap string User.t) (p : string) :
  sameIdentity o o' → is_Some (o !! p) → is_Some (o' !! p).
Proof.
  intros Hs [u Hu]. specialize (Hs p). rewrite Hu in Hs.
  inversion Hs as [u1 u' _ E1 E2|]; subst. eauto.
Qed.

Lemma sameIdentity_ids (o o' : gmap string User.t) :
  sameIdentity o o' →
  (∀ p u, o !! p = Some u → User.ID u = p) → (∀ p u, o' !! p = Some u → User.ID u = p).
Proof.
  intros Hs Hids p u' Hu'. specialize (Hs p). rewrite Hu' in Hs.
  inversion Hs as [u u1 [Hid _] E1 E2|]; subst. rewrite Hid. apply Hids. congruence.
Qed.

Lemma handleClientMessage_challenges_shape
    (h : Hub) (user : string) (msg : Message.t) (env : Env)
    (cid : string) (c : Challenge.t) :
  challenges (handleClientMessage h user msg env).1 !! cid = Some c →
  challenges h !! cid = Some c
  ∨ (cid = uuid env
     ∧ c = Challenge.mk (uuid env) user (Message.TargetUserID msg) (now env)
     ∧ Message.TargetUserID msg ∈ users h).
Proof.
  unfold handleClientMessage.
  repeat match goal with |- context [String.eqb ?a ?b] => destruct (String.eqb a b) end;
    try (intros Hc; left; exact Hc).
  - unfold handleChallenge. case_decide as Hlive; [|intros Hc; left; exact Hc].
    destruct (User.InGame _); [intros Hc; left; exact Hc|].
    case_decide; [intros Hc; left; exact Hc|]. simpl. intros Hc.
    destruct (decide (uuid env = cid)) as [<-|Hne].
    + rewrite lookup_insert_eq in Hc. injection Hc as <-. right. repeat split. exact Hlive.
    + rewrite lookup_insert_ne in Hc by exact Hne. left. exact Hc.
  - unfold handleAcceptChallenge.
    destruct (challenges h !! Message.ChallengeID msg); [|intros Hc; left; exact Hc].
    case_decide; [|intros Hc; left; exact Hc]. simpl. intros Hc. left.
    apply lookup_delete_Some in Hc. apply Hc.
  - unfold handleDeclineChallenge.
    destruct (challenges h !! Message.ChallengeID msg); [|intros Hc; left; exact Hc].
    case_decide; [|intros Hc; left; exact Hc]. simpl. intros Hc. left.
    apply lookup_delete_Some in Hc. apply Hc.
  - destruct (handleSubmitBid_frame h user msg env) as [_ ->]. intros Hc. left. exact Hc.
  - unfold handleRematch.
    destruct (games h !! Message.GameID msg); [|intros Hc; left; exact Hc].
    repeat case_decide; intros Hc; left; exact Hc.
  - destruct (handleResign_frame h user msg env) as [_ ->]. intros Hc. left. exact Hc.
Qed.

Lemma hubStep_wfHub (h : Hub) (ev : Event) :
  enabled h ev → wfHub h → wfHub (hubStep h ev).1.
Proof.
  intros Hen (Hlive & Hids & Hch & Hgm).
  destruct ev as [userID username|user|user msg env|tnow]; simpl in *.
  - (* Register *)
    unfold handleConnect. cbn [fst objs users challenges games].
    split; [|split; [|split]].
    + intros p Hp. simpl in Hp |- *. apply lookup_insert_is_Some'.
      apply elem_of_union in Hp as [Hp|Hp];
        [left; apply elem_of_singleton in Hp; congruence|right; apply Hlive, Hp].
    + intros p u Hu. simpl in Hu. destruct (decide (userID = p)) as [<-|Hne].
      * rewrite lookup_insert_eq in Hu. injection Hu as <-. reflexivity.
      * rewrite lookup_insert_ne in Hu by exact Hne. apply Hids, Hu.
    + intros cid c Hc. simpl in Hc |- *. destruct (Hch cid c Hc) as (Hid & Hf & Ht).
      split; [exact Hid|]. split; [apply lookup_insert_is_Some'; right; exact Hf|].
      apply elem_of_union. right. exact Ht.
    + intros gid g Hg. simpl in Hg |- *. destruct (Hgm gid g Hg) as (Hid & H1 & H2).
      split; [exact Hid|]. split; apply lookup_insert_is_Some'; right; assumption.
  - (* Unregister *)
    case_decide; [|exact (conj Hlive (conj Hids (conj Hch Hgm)))].
    unfold handleDisconnect. cbn [fst objs users challenges games].
    assert (Hs : sameIdentity (objs h)
                   (foldr (λ kv o, alter (User.set_InGame_only false)
                                     (opponentOf user kv.2) o) (objs h)
                      (filter (λ kv : string * Game.t, Game.GameOver kv.2 = false)
                         (map_to_list (filter (λ kv, involves user kv.2) (games h)))))).
    { apply (sameIdentity_foldr _ (λ kv : string * Game.t, opponentOf user kv.2)).
      intros u. split; reflexivity. }
    split; [|split; [|split]].
    + intros p Hp. simpl in Hp |- *. apply (sameIdentity_is_Some _ _ _ Hs). apply Hlive.
      apply elem_of_difference in Hp. apply Hp.
    + apply (sameIdentity_ids _ _ Hs Hids).
    + intros cid c Hc. simpl in Hc |- *.
      apply map_lookup_filter_Some in Hc as [Hc Hparty].
      destruct (Hch cid c Hc) as (Hid & Hf & Ht).
      split; [exact Hid|]. split; [apply (sameIdentity_is_Some _ _ _ Hs), Hf|].
      unfold party in Hparty. simpl in Hparty.
      apply elem_of_difference. split; [exact Ht|].
      intros Hu. apply elem_of_singleton in Hu. tauto.
    + intros gid g Hg. simpl in Hg |- *. apply map_lookup_filter_Some in Hg as [Hg _].
      destruct (Hgm gid g Hg) as (Hid & H1 & H2).
      split; [exact Hid|]. split; apply (sameIdentity_is_Some _ _ _ Hs); assumption.
  - (* ClientMessage *)
    destruct Hen as (Huser & _ & _).
    pose proof (handleClientMessage_objs h user msg env) as Hs.
    split; [|split; [|split]].
    + intros p Hp. rewrite handleClientMessage_frame in Hp.
      apply (sameIdentity_is_Some _ _ _ Hs), Hlive, Hp.
    + apply (sameIdentity_ids _ _ Hs Hids).
    + intros cid c Hc. rewrite handleClientMessage_frame.
      apply handleClientMessage_challenges_shape in Hc as [Hc|(-> & -> & Hto)].
      * destruct (Hch cid c Hc) as (Hid & Hf & Ht).
        split; [exact Hid|]. split; [apply (sameIdentity_is_Some _ _ _ Hs), Hf|exact Ht].
      * simpl. split; [reflexivity|].
        split; [apply (sameIdentity_is_Some _ _ _ Hs), Huser|exact Hto].
    + intros gid g' Hg'.
      apply handleClientMessage_games in Hg' as [(g & Hg & Hev)|(-> & c & Hc & _ & ->)].
      * destruct Hev as (E1 & E2 & E3 & _). destruct (Hgm gid g Hg) as (Hid & H1 & H2).
        rewrite E1, E2, E3. split; [exact Hid|].
        split; apply (sameIdentity_is_Some _ _ _ Hs); assumption.
      * destruct (Hch _ c Hc) as (_ & Hf & Ht). simpl. split; [reflexivity|].
        split; apply (sameIdentity_is_Some _ _ _ Hs); [exact Hf|apply Hlive, Ht].
  - (* Tick *)
    unfold checkExpiredChallenges. cbn [fst objs users challenges games].
    split; [exact Hlive|]. split; [exact Hids|]. split; [|exact Hgm].
    intros cid c Hc. simpl in Hc |- *.
    apply map_lookup_filter_Some in Hc as [Hc _]. apply Hch, Hc.
Qed.

Lemma newHub_wfHub : wfHub newHub.
Proof.
  repeat split; intros; simpl in *;
    first [set_solver | rewrite lookup_empty in *; discriminate].
Qed.

Lemma run_wfHub (evs : list Event) (s : Sys) :
  wfHub (hub s) → runOK s evs → wfHub (hub (run s evs)).
Proof.
  revert s. induction evs as [|ev evs IH]; intros s Hwf Hok; simpl in *.
  - exact Hwf.
  - destruct Hok as [Hen Hok]. apply IH; [|exact Hok].
    simpl. apply hubStep_wfHub; assumption.
Qed.

Lemma hubStep_wfHub_run : wfHub (hub (run newSys lobby)).
Proof.
  apply run_wfHub; [apply newHub_wfHub|].
  apply (bool_decide_unpack _). vm_compute. exact I.
Qed.

(** X10.  In every reachable state the hub's references are sound:
    every live user has an object, every object carries its own id, every
    pending challenge is stored under its own id with an allocated sender
    and a recipient who is still live, and every match is stored under its
    own id with two allocated players. *)
Theorem reachable_wfHub (s : Sys) : reachable s → wfHub (hub s).
Proof.
  induction 1 as [|s s' Hs IH Hstep].
  - apply newHub_wfHub.
  - destruct Hstep as [s ev Hen|s g before after Hp]; simpl.
    + apply hubStep_wfHub; assumption.
    + destruct g as [d gid]. destruct IH as (Hlive & Hids & Hch & Hgm).
      split; [exact Hlive|]. split; [exact Hids|]. split; [exact Hch|].
      intros gid' g' Hg'. simpl in Hg'. apply lookup_delete_Some in Hg' as [_ Hg'].
      apply Hgm, Hg'.
Qed.

Lemma reachable_wfHub_witness : wfHub (hub (run newSys doubleAccept)).
Proof.
  apply reachable_wfHub. apply run_reachable; [apply reach_init|].
  apply (bool_decide_unpack _). vm_compute. exact I.
Defined.

(** X11.  One step of the server (an event of the loop or the waking of
    a removal goroutine) never rewrites a match: a match found under the
    same key before and after keeps its id, its two players in the same
    order and its start time, and its earlier history is a prefix of its
    later history. *)
Theorem step_keeps_match_identity (s s' : Sys) (gid : string) (g g' : Game.t) :
  step s s' →
  games (hub s) !! gid = Some g → games (hub s') !! gid = Some g' →
  Game.ID g' = Game.ID g ∧ Game.Player1 g' = Game.Player1 g
  ∧ Game.Player2 g' = Game.Player2 g ∧ Game.StartTime g' = Game.StartTime g
  ∧ Game.History g `prefix_of` Game.History g'.
Proof.
  intros Hstep Hg Hg'. change (evolves g g').
  destruct Hstep as [s ev Hen|s gr before after Hp]; simpl in Hg'.
  - destruct ev as [userID username|user|user msg env|tnow]; simpl in Hg', Hen.
    + unfold handleConnect in Hg'. simpl in Hg'.
      rewrite Hg in Hg'. injection Hg' as <-. apply evolves_refl.
    + case_decide.
      * unfold handleDisconnect in Hg'. simpl in Hg'.
        apply map_lookup_filter_Some in Hg' as [Hg' _].
        rewrite Hg in Hg'. injection Hg' as <-. apply evolves_refl.
      * simpl in Hg'. rewrite Hg in Hg'. injection Hg' as <-. apply evolves_refl.
    + destruct Hen as (_ & _ & Hfresh).
      apply handleClientMessage_games in Hg' as [(g0 & Hg0 & Hev)|(-> & _)].
      * rewrite Hg in Hg0. injection Hg0 as <-. exact Hev.
      * rewrite Hfresh in Hg. discriminate Hg.
    + unfold checkExpiredChallenges in Hg'. simpl in Hg'.
      rewrite Hg in Hg'. injection Hg' as <-. apply evolves_refl.
  - destruct gr as [d gid0]. simpl in Hg'.
    apply lookup_delete_Some in Hg' as [_ Hg'].
    rewrite Hg in Hg'. injection Hg' as <-. apply evolves_refl.
Qed.

Lemma step_keeps_match_identity_witness :
  ∃ g g' : Game.t,
    games (hub (run newSys (lobby ++ [ClientMessage "A" (bidMsg "g1" 5) (mkEnv "u" 30)])))
      !! "g1" = Some g
    ∧ games (hub (run newSys (lobby ++ bidPair 5 3))) !! "g1" = Some g'
    ∧ Game.History g `prefix_of` Game.History g'.
Proof.
  eexists _, _. split; [vm_compute; reflexivity|]. split; [vm_compute; reflexivity|].
  eapply (step_keeps_match_identity
            (run newSys (lobby ++ [ClientMessage "A" (bidMsg "g1" 5) (mkEnv "u" 30)]))
            (run newSys (lobby ++ bidPair 5 3)) "g1").
  - change (run newSys (lobby ++ bidPair 5 3))
      with (sysStep (run newSys (lobby ++ [ClientMessage "A" (bidMsg "g1" 5)
                                             (mkEnv "u" 30)]))
              (ClientMessage "B" (bidMsg "g1" 3) (mkEnv "u" 30))).
    apply step_event. apply (bool_decide_unpack _). vm_compute. exact I.
  - vm_compute. reflexivity.
  - vm_compute. reflexivity.
Defined.

(** ** The ledger of a running match *)

Lemma paid1_snoc (l : list RoundHistory.t) (e : RoundHistory.t) :
  paid1 (l ++ [e]) = paid1 l + RoundHistory.P1Bid e.
Proof. unfold paid1. induction l as [|x l IH]; simpl; [lia|]. rewrite IH. lia. Qed.

Lemma paid2_snoc (l : list RoundHistory.t) (e : RoundHistory.t) :
  paid2 (l ++ [e]) = paid2 l + RoundHistory.P2Bid e.
Proof. unfold paid2. induction l as [|x l IH]; simpl; [lia|]. rewrite IH. lia. Qed.

Lemma roundsWith_snoc (tag : string) (l : list RoundHistory.t) (e : RoundHistory.t) :
  roundsWith tag (l ++ [e])
  = roundsWith tag l + (if decide (RoundHistory.Result e = tag) then 1 else 0).
Proof.
  unfold roundsWith. rewrite filter_app, length_app.
  rewrite Nat2Z.inj_add. f_equal.
  case_decide as Htag.
  - rewrite filter_cons_True by exact Htag. reflexivity.
  - rewrite filter_cons_False by exact Htag. reflexivity.
Qed.

Lemma int_inc_wrap (a : Z) : int_inc (wrap a) = wrap (a + 1).
Proof.
  unfold int_inc, wrap.
  replace ((a + 2 ^ 63) mod 2 ^ 64 - 2 ^ 63 + 1 + 2 ^ 63)
    with ((a + 2 ^ 63) mod 2 ^ 64 + 1) by lia.
  rewrite Z.add_mod_idemp_l by lia. f_equal. f_equal. lia.
Qed.

Lemma checkWinCondition_continue_balances (g : Game.t) :
  ((checkWinCondition g).1 >? 0) = false →
  ¬ (Game.Player1Balance g = 0 ∧ Game.Player2Balance g = 0).
Proof.
  unfold checkWinCondition.
  destruct (Z.geb_spec (Game.Player1Pos g) MAX_STEPS); [discriminate|].
  destruct (Z.geb_spec (Game.Player2Pos g) MAX_STEPS); [discriminate|].
  destruct (Z.eqb_spec (Game.Player1Balance g) 0);
    destruct (Z.eqb_spec (Game.Player2Balance g) 0); simpl; try tauto.
  destruct (Game.Player1Pos g >? Game.Player2Pos g); [discriminate|].
  destruct (Game.Player2Pos g >? Game.Player1Pos g); discriminate.
Qed.

Lemma resolved_ledgerOK (b1 b2 tnow : Z) (g : Game.t) :
  Game.Player1Bid g = Some b1 → Game.Player2Bid g = Some b2 →
  runningOK g → ledgerOK g → ledgerOK (resolved b1 b2 tnow g).
Proof.
  intros Hb1 Hb2 Hok Hled. unfold resolved.
  destruct ((checkWinCondition (playRound b1 b2 g)).1 >? 0) eqn:Hw.
  - intros Hrun. discriminate Hrun.
  - pose proof (checkWinCondition_continue_balances _ Hw) as Hnz.
    intros Hrun. simpl in Hrun.
    destruct (Hok Hrun) as (B1 & B2 & P1 & P2 & Q1 & Q2).
    destruct (Hled Hrun) as (L1 & L2 & L3 & L4 & L5 & _).
    specialize (Q1 b1 Hb1). specialize (Q2 b2 Hb2).
    unfold INITIAL_BUDGET, MAX_STEPS in *. simpl in Hnz. simpl.
    rewrite paid1_snoc, paid2_snoc, !roundsWith_snoc, length_app. simpl.
    rewrite !int_sub_exact in * by (unfold int_max; lia).
    rewrite L5, int_inc_wrap, Nat2Z.inj_add. change (Z.of_nat 1) with 1.
    unfold roundTag.
    destruct (Z.gtb_spec b1 b2); [|destruct (Z.gtb_spec b2 b1)];
      rewrite ?int_inc_exact by (unfold int_min, int_max; lia);
      repeat case_decide; try congruence;
      (split; [lia|]); (split; [lia|]); (split; [lia|]); (split; [lia|]);
      (split; [reflexivity|]); exact Hnz.
Qed.

Lemma storeBid_ledgerOK (user : string) (bid : Z) (g : Game.t) :
  ledgerOK g → ledgerOK (storeBid user bid g).
Proof. unfold ledgerOK, storeBid. case_decide; simpl; tauto. Qed.

Lemma set_Status_ledgerOK (st : string) (g : Game.t) :
  ledgerOK g → ledgerOK (Game.set_Status st g).
Proof. unfold ledgerOK. simpl. tauto. Qed.

Lemma ledgersOK_insert (h h' : Hub) (gp : string) (g : Game.t) :
  games h' = <[gp := g]> (games h) → ledgerOK g → ledgersOK h → ledgersOK h'.
Proof.
  unfold ledgersOK. intros -> Hg Hh. apply map_Forall_insert_2; assumption.
Qed.

Lemma ledgersOK_subseteq (h h' : Hub) : games h' ⊆ games h → ledgersOK h → ledgersOK h'.
Proof.
  unfold ledgersOK. intros Hsub Hh gid g Hg. apply (Hh gid).
  eapply lookup_weaken; eassumption.
Qed.

Lemma handleSubmitBid_ledgersOK (h : Hub) (user : string) (msg : Message.t) (env : Env) :
  gamesOK h → ledgersOK h → ledgersOK (handleSubmitBid h user msg env).1.
Proof.
  intros Hok Hh.
  destruct (games h !! Message.GameID msg) as [game|] eqn:Hg;
    [|rewrite (handleSubmitBid_unknown _ _ _ _ Hg); exact Hh].
  destruct (decide (involves user game)) as [Hin|Hout];
    [|rewrite (handleSubmitBid_stranger _ _ _ _ _ Hg Hout); exact Hh].
  destruct (decide (0 ≤ Message.Bid msg ≤ balanceOf user game)) as [Hbid|Hbad];
    [|rewrite (handleSubmitBid_out_of_range _ _ _ _ _ Hg Hin Hbad); exact Hh].
  rewrite (handleSubmitBid_in_range _ _ _ _ _ Hg Hin Hbid). cbv zeta.
  assert (Hstored : ledgerOK (storeBid user (Message.Bid msg) game))
    by (apply storeBid_ledgerOK; exact (Hh _ _ Hg)).
  assert (Hbounds : runningOK (storeBid user (Message.Bid msg) game))
    by (apply storeBid_runningOK; [exact Hbid | exact (Hok _ _ Hg)]).
  destruct (Game.Player1Bid (storeBid user (Message.Bid msg) game)) as [b1|] eqn:E1;
    [destruct (Game.Player2Bid (storeBid user (Message.Bid msg) game)) as [b2|] eqn:E2|].
  - destruct (resolveRound_games h (Message.GameID msg)
                (Game.set_Status "RESOLVING" (storeBid user (Message.Bid msg) game))
                (now env) b1 b2 E1 E2) as (Hgs & _).
    eapply ledgersOK_insert; [exact Hgs | | exact Hh].
    apply resolved_ledgerOK; [exact E1 | exact E2 | |].
    + apply set_Status_runningOK, Hbounds.
    + apply set_Status_ledgerOK, Hstored.
  - eapply ledgersOK_insert; [reflexivity | exact Hstored | exact Hh].
  - eapply ledgersOK_insert; [reflexivity | exact Hstored | exact Hh].
Qed.

Lemma handleClientMessage_ledgersOK
    (h : Hub) (user : string) (msg : Message.t) (env : Env) :
  gamesOK h → ledgersOK h → ledgersOK (handleClientMessage h user msg env).1.
Proof.
  intros Hok Hh. unfold handleClientMessage.
  repeat match goal with |- context [String.eqb ?a ?b] => destruct (String.eqb a b) end;
    try exact Hh.
  - unfold handleChallenge. case_decide; [|exact Hh].
    destruct (User.InGame _); [exact Hh|]. case_decide; exact Hh.
  - unfold handleAcceptChallenge.
    destruct (challenges h !! Message.ChallengeID msg); [|exact Hh].
    case_decide; [|exact Hh].
    eapply ledgersOK_insert; [reflexivity | | exact Hh].
    unfold ledgerOK, INITIAL_BUDGET. simpl. intros _.
    repeat split; try reflexivity. intros [H0 _]. discriminate H0.
  - unfold handleDeclineChallenge.
    destruct (challenges h !! Message.ChallengeID msg); [|exact Hh].
    case_decide; exact Hh.
  - apply handleSubmitBid_ledgersOK; assumption.
  - unfold handleRematch.
    destruct (games h !! Message.GameID msg); [|exact Hh]. repeat case_decide; exact Hh.
  - unfold handleResign.
    destruct (games h !! Message.GameID msg) as [game|]; [|exact Hh].
    destruct (Game.GameOver game); [exact Hh|].
    repeat case_decide; try exact Hh;
      (eapply ledgersOK_insert; [reflexivity | | exact Hh]);
      intros Hrun; discriminate Hrun.
Qed.

(** X12.  In every reachable state, every match that is not over
    balances its books: each player's balance is [INITIAL_BUDGET] minus the
    sum of that player's bids in the history, each player's position is the
    number of rounds of the history won by that player, the round counter
    is the number of rounds played plus one, and the two players are not
    both at balance zero. *)
Theorem reachable_ledger (s : Sys) : reachable s → ledgersOK (hub s).
Proof.
  induction 1 as [|s s' Hs IH Hstep].
  - intros gid g Hg. simpl in Hg. rewrite lookup_empty in Hg. discriminate.
  - pose proof (running_match_bounds s Hs) as Hok.
    destruct Hstep as [s ev Hen|s g before after Hp]; simpl.
    + destruct ev as [userID username|user|user msg env|tnow]; simpl.
      * exact IH.
      * case_decide; [|exact IH].
        eapply ledgersOK_subseteq; [apply map_filter_subseteq | exact IH].
      * apply handleClientMessage_ledgersOK; assumption.
      * exact IH.
    + destruct g. eapply ledgersOK_subseteq; [apply delete_subseteq | exact IH].
Qed.

Lemma reachable_ledger_witness : ledgersOK (hub (run newSys (lobby ++ bidPair 5 3))).
Proof.
  apply reachable_ledger. apply run_reachable; [apply reach_init|].
  apply (bool_decide_unpack _). vm_compute. exact I.
Defined.

(** ** How bid submissions compose *)

Lemma resolveRound_withGame
    (h : Hub) (gp : string) (x game : Game.t) (tnow b1 b2 : Z) :
  Game.Player1Bid game = Some b1 → Game.Player2Bid game = Some b2 →
  resolveRound (withGame h gp x) gp game tnow = resolveRound h gp game tnow.
Proof.
  intros H1 H2. destruct h as [o u c g]. unfold resolveRound, withGame. simpl.
  rewrite H1, H2.
  destruct (if b1 >? b2 then _ else _) as [[p1 p2] tag].
  destruct (checkWinCondition _) as [winner reason].
  destruct (winner >? 0); rewrite insert_insert_eq; reflexivity.
Qed.

(** X13.  The two bids of a round may arrive in either order.  For a
    match of two different players with no bid stored, player one's bid
    [b1] and player two's bid [b2], each within the bidder's balance, give
    the same hub and the same messages whichever is submitted first: those
    of resolving the round with both bids from the hub as it was, at the
    time of the second submission.  The first submission alone sends
    nothing. *)
Theorem bids_commute
    (h : Hub) (game : Game.t) (msg1 msg2 : Message.t) (env env' : Env) :
  games h !! Message.GameID msg1 = Some game →
  Message.GameID msg2 = Message.GameID msg1 →
  Game.Player1 game ≠ Game.Player2 game →
  Game.Player1Bid game = None → Game.Player2Bid game = None →
  0 ≤ Message.Bid msg1 ≤ Game.Player1Balance game →
  0 ≤ Message.Bid msg2 ≤ Game.Player2Balance game →
  let p1 := Game.Player1 game in
  let p2 := Game.Player2 game in
  let both :=
    resolveRound h (Message.GameID msg1)
      (Game.set_Status "RESOLVING" (bidGame (Message.Bid msg1) (Message.Bid msg2) game))
      (now env') in
  handleSubmitBid (handleSubmitBid h p1 msg1 env).1 p2 msg2 env' = both
  ∧ handleSubmitBid (handleSubmitBid h p2 msg2 env).1 p1 msg1 env' = both
  ∧ (handleSubmitBid h p1 msg1 env).2 = []
  ∧ (handleSubmitBid h p2 msg2 env).2 = [].
Proof.
  intros Hg Hid Hne Hn1 Hn2 Hb1 Hb2 p1 p2 both. subst p1 p2 both.
  assert (Hin1 : involves (Game.Player1 game) game) by (left; reflexivity).
  assert (Hin2 : involves (Game.Player2 game) game) by (right; reflexivity).
  assert (Hbal1 : balanceOf (Game.Player1 game) game = Game.Player1Balance game)
    by (unfold balanceOf; rewrite decide_True by reflexivity; reflexivity).
  assert (Hbal2 : balanceOf (Game.Player2 game) game = Game.Player2Balance game)
    by (unfold balanceOf; rewrite decide_False by exact Hne; reflexivity).
  assert (Hs1 : storeBid (Game.Player1 game) (Message.Bid msg1) game
                = Game.set_Player1Bid (Some (Message.Bid msg1)) game)
    by (unfold storeBid; rewrite decide_True by reflexivity; reflexivity).
  assert (Hs2 : storeBid (Game.Player2 game) (Message.Bid msg2) game
                = Game.set_Player2Bid (Some (Message.Bid msg2)) game)
    by (unfold storeBid; rewrite decide_False by exact Hne; reflexivity).
  pose proof Hg as Hg2. rewrite <- Hid in Hg2.
  (* the first submissions *)
  assert (Hfirst1 : handleSubmitBid h (Game.Player1 game) msg1 env
                    = (withGame h (Message.GameID msg1)
                         (Game.set_Player1Bid (Some (Message.Bid msg1)) game), [])).
  { rewrite (handleSubmitBid_in_range _ _ _ _ _ Hg Hin1) by (rewrite Hbal1; exact Hb1).
    cbv zeta. rewrite Hs1. simpl. rewrite Hn2. reflexivity. }
  assert (Hfirst2 : handleSubmitBid h (Game.Player2 game) msg2 env
                    = (withGame h (Message.GameID msg1)
                         (Game.set_Player2Bid (Some (Message.Bid msg2)) game), [])).
  { rewrite (handleSubmitBid_in_range _ _ _ _ _ Hg2 Hin2) by (rewrite Hbal2; exact Hb2).
    cbv zeta. rewrite Hs2, Hid. simpl. rewrite Hn1. reflexivity. }
  rewrite Hfirst1, Hfirst2. simpl fst. simpl snd.
  split; [|split; [|split; reflexivity]].
  - set (g1 := Game.set_Player1Bid (Some (Message.Bid msg1)) game).
    assert (Hg1 : games (withGame h (Message.GameID msg1) g1) !! Message.GameID msg2
                  = Some g1) by (rewrite Hid; apply lookup_insert_eq).
    rewrite (handleSubmitBid_in_range _ _ _ _ _ Hg1)
      by first [right; reflexivity
               | unfold balanceOf; subst g1; simpl;
                 rewrite decide_False by exact Hne; exact Hb2].
    cbv zeta. unfold storeBid. subst g1. simpl.
    rewrite decide_False by exact Hne. simpl. rewrite Hid.
    apply (resolveRound_withGame _ _ _ _ _ (Message.Bid msg1) (Message.Bid msg2));
      reflexivity.
  - set (g2 := Game.set_Player2Bid (Some (Message.Bid msg2)) game).
    assert (Hg2' : games (withGame h (Message.GameID msg1) g2) !! Message.GameID msg1
                   = Some g2) by apply lookup_insert_eq.
    rewrite (handleSubmitBid_in_range _ _ _ _ _ Hg2')
      by first [left; reflexivity
               | unfold balanceOf; subst g2; simpl;
                 rewrite decide_True by reflexivity; exact Hb1].
    cbv zeta. unfold storeBid. subst g2. simpl.
    rewrite decide_True by reflexivity. simpl.
    apply (resolveRound_withGame _ _ _ _ _ (Message.Bid msg1) (Message.Bid msg2));
      reflexivity.
Qed.

Lemma bids_commute_witness :
  handleSubmitBid (handleSubmitBid oneGameHub "A" (bidMsg "g1" 5) (mkEnv "u" 1)).1
                  "B" (bidMsg "g1" 3) (mkEnv "u" 2)
  = handleSubmitBid (handleSubmitBid oneGameHub "B" (bidMsg "g1" 3) (mkEnv "u" 1)).1
                    "A" (bidMsg "g1" 5) (mkEnv "u" 2).
Proof.
  destruct (bids_commute oneGameHub freshGame (bidMsg "g1" 5) (bidMsg "g1" 3)
              (mkEnv "u" 1) (mkEnv "u" 2)) as (Hab & Hba & _).
  - reflexivity.
  - reflexivity.
  - discriminate.
  - reflexivity.
  - reflexivity.
  - vm_compute. split; discriminate.
  - vm_compute. split; discriminate.
  - simpl in Hab, Hba. rewrite Hab, Hba. reflexivity.
Defined.

(** X14.  Until the opponent has bid, a player's bid can be replaced:
    submitting [msg] and then [msg'], both within the balance, leaves the
    hub exactly as submitting [msg'] alone does, and neither submission
    sends anything or touches balances, positions or the history. *)
Theorem bid_can_be_replaced
    (h : Hub) (user : string) (game : Game.t) (msg msg' : Message.t) (env env' : Env) :
  games h !! Message.GameID msg = Some game →
  Message.GameID msg' = Message.GameID msg →
  involves user game → otherBid user game = None →
  0 ≤ Message.Bid msg ≤ balanceOf user game →
  0 ≤ Message.Bid msg' ≤ balanceOf user game →
  handleSubmitBid (handleSubmitBid h user msg env).1 user msg' env'
  = handleSubmitBid h user msg' env'
  ∧ handleSubmitBid h user msg' env'
    = (withGame h (Message.GameID msg) (storeBid user (Message.Bid msg') game), [])
  ∧ Game.Player1Balance (storeBid user (Message.Bid msg') game) = Game.Player1Balance game
  ∧ Game.Player2Balance (storeBid user (Message.Bid msg') game) = Game.Player2Balance game
  ∧ Game.Player1Pos (storeBid user (Message.Bid msg') game) = Game.Player1Pos game
  ∧ Game.Player2Pos (storeBid user (Message.Bid msg') game) = Game.Player2Pos game
  ∧ Game.History (storeBid user (Message.Bid msg') game) = Game.History game.
Proof.
  intros Hg Hid Hin Hother Hb Hb'.
  assert (Hone : ∀ (b : Z) (m : Message.t) (e : Env),
            Message.GameID m = Message.GameID msg → Message.Bid m = b →
            0 ≤ b ≤ balanceOf user game →
            handleSubmitBid h user m e
            = (withGame h (Message.GameID msg) (storeBid user b game), [])).
  { intros b m e Hm Hbid Hok. subst b.
    assert (Hgm : games h !! Message.GameID m = Some game) by (rewrite Hm; exact Hg).
    rewrite (handleSubmitBid_in_range _ _ _ _ _ Hgm Hin Hok). cbv zeta. rewrite Hm.
    revert Hother. unfold otherBid, storeBid.
    case_decide; simpl; intros ->; [|reflexivity].
    destruct (Game.Player1Bid game); reflexivity. }
  rewrite (Hone _ msg env eq_refl eq_refl Hb).
  rewrite (Hone _ msg' env' Hid eq_refl Hb'). simpl fst.
  split; [|split; [reflexivity|]].
  - set (g1 := storeBid user (Message.Bid msg) game).
    assert (Hg1 : games (withGame h (Message.GameID msg) g1) !! Message.GameID msg'
                  = Some g1) by (rewrite Hid; apply lookup_insert_eq).
    assert (Hin1 : involves user g1)
      by (subst g1; unfold storeBid, involves in *; case_decide; simpl; exact Hin).
    assert (Hbal : balanceOf user g1 = balanceOf user game)
      by (subst g1; unfold storeBid, balanceOf; repeat case_decide; simpl in *;
          congruence).
    rewrite (handleSubmitBid_in_range _ _ _ _ _ Hg1 Hin1) by (rewrite Hbal; exact Hb').
    cbv zeta. rewrite Hid.
    assert (Hst : storeBid user (Message.Bid msg') g1
                  = storeBid user (Message.Bid msg') game)
      by (subst g1; unfold storeBid; repeat case_decide; simpl in *;
          first [reflexivity | congruence]).
    rewrite Hst. revert Hother. unfold otherBid, storeBid, withGame.
    case_decide; simpl; intros ->; simpl; rewrite ?insert_insert_eq; [reflexivity|].
    destruct (Game.Player1Bid game); rewrite ?insert_insert_eq; reflexivity.
  - unfold storeBid. case_decide; repeat split; reflexivity.
Qed.

Lemma bid_can_be_replaced_witness :
  handleSubmitBid (handleSubmitBid oneGameHub "A" (bidMsg "g1" 5) (mkEnv "u" 1)).1
                  "A" (bidMsg "g1" 7) (mkEnv "u" 2)
  = handleSubmitBid oneGameHub "A" (bidMsg "g1" 7) (mkEnv "u" 2).
Proof.
  destruct (bid_can_be_replaced oneGameHub "A" freshGame (bidMsg "g1" 5) (bidMsg "g1" 7)
              (mkEnv "u" 1) (mkEnv "u" 2)) as (Hrep & _).
  - reflexivity.
  - reflexivity.
  - left. reflexivity.
  - reflexivity.
  - vm_compute. split; discriminate.
  - vm_compute. split; discriminate.
  - exact Hrep.
Defined.

(** ** How connections, challenges and matches compose *)

(** X15.  Unregistering is idempotent: a second [unregister] of the same
    client, like the [unregister] of a client that is not registered,
    leaves the hub unchanged and sends nothing. *)
Theorem unregister_twice (h : Hub) (user : string) :
  (user ∉ users h → hubStep h (Unregister user) = (h, []))
  ∧ hubStep (hubStep h (Unregister user)).1 (Unregister user)
    = ((hubStep h (Unregister user)).1, []).
Proof.
  split.
  - intros Hout. simpl. rewrite decide_False by exact Hout. reflexivity.
  - simpl. destruct (decide (user ∈ users h)) as [Hin|Hout].
    + rewrite decide_False; [reflexivity|].
      unfold handleDisconnect. simpl. intros Hu.
      apply elem_of_difference in Hu as [_ Hu]. apply Hu. apply elem_of_singleton.
      reflexivity.
    + simpl. rewrite decide_False by exact Hout. reflexivity.
Qed.

Lemma unregister_twice_witness :
  hubStep oneGameHub (Unregister "C") = (oneGameHub, []).
Proof.
  destruct (unregister_twice oneGameHub "C") as [Hout _].
  apply Hout. apply (bool_decide_unpack _). vm_compute. exact I.
Defined.

(** X16.  A connection followed at once by its disconnection undoes
    itself: in a well-formed hub, registering a client under a fresh id and
    unregistering it again leaves the live users, the challenges and the
    matches exactly as they were, and writes to no earlier user object; the
    new object alone stays behind, unreferenced. *)
Theorem connect_then_disconnect (h : Hub) (userID username : string) :
  wfHub h → objs h !! userID = None →
  let h1 := (hubStep h (Register userID username)).1 in
  let h2 := (hubStep h1 (Unregister userID)).1 in
  users h2 = users h ∧ challenges h2 = challenges h ∧ games h2 = games h
  ∧ objs h2 = <[userID := User.mk userID username false ""]> (objs h).
Proof.
  intros (Hlive & Hids & Hch & Hgm) Hfresh h1 h2.
  assert (Hnot : userID ∉ users h).
  { intros Hin. destruct (Hlive _ Hin) as [u Hu]. congruence. }
  assert (Hgames : ∀ gid g, games h !! gid = Some g → ¬ involves userID g).
  { intros gid g Hg [H1|H2]; destruct (Hgm gid g Hg) as (_ & [u1 Hu1] & [u2 Hu2]);
      congruence. }
  assert (Hchal : ∀ cid c, challenges h !! cid = Some c → ¬ party userID c).
  { intros cid c Hc [H1|H2]; destruct (Hch cid c Hc) as (_ & [u1 Hu1] & Hto).
    - congruence.
    - apply Hnot. rewrite <- H2. exact Hto. }
  subst h2 h1. simpl.
  rewrite decide_True by (apply elem_of_union; left; apply elem_of_singleton; reflexivity).
  unfold handleDisconnect. simpl.
  assert (Hmine : filter (λ kv : string * Game.t, involves userID kv.2) (games h) = ∅).
  { apply map_empty. intros gid. apply map_lookup_filter_None. right.
    intros g Hg. simpl. exact (Hgames gid g Hg). }
  rewrite Hmine, map_to_list_empty. simpl.
  split; [|split; [|split; [|reflexivity]]].
  - apply set_eq. intros p. rewrite elem_of_difference, elem_of_union, !elem_of_singleton.
    split; [intros [[->|Hp] Hne]; [congruence|exact Hp]|].
    intros Hp. split; [right; exact Hp|]. intros ->. exact (Hnot Hp).
  - apply map_filter_id. intros cid c Hc. simpl. exact (Hchal cid c Hc).
  - apply map_filter_id. intros gid g Hg. simpl. exact (Hgames gid g Hg).
Qed.

Lemma connect_then_disconnect_witness :
  games (hubStep (hubStep (hub (run newSys lobby)) (Register "C" "Carol")).1
           (Unregister "C")).1
  = games (hub (run newSys lobby)).
Proof.
  destruct (connect_then_disconnect (hub (run newSys lobby)) "C" "Carol")
    as (_ & _ & Hg & _).
  - apply hubStep_wfHub_run.
  - reflexivity.
  - exact Hg.
Defined.

(** X17.  A challenge that is declined leaves no trace: after
    [handleChallenge] has stored a challenge under a fresh id, the decline
    by its recipient returns the hub to exactly what it was and notifies
    the challenger; a decline by anyone else, the challenger included, is
    ignored. *)
Theorem challenge_then_decline
    (h : Hub) (from : string) (msg dmsg : Message.t) (env : Env) :
  Message.TargetUserID msg ∈ users h →
  User.InGame (deref h (Message.TargetUserID msg)) = false →
  (∀ (cid : string) (c : Challenge.t), challenges h !! cid = Some c →
     ¬ (Challenge.FromUser c = from ∧ Challenge.ToUser c = Message.TargetUserID msg)) →
  challenges h !! uuid env = None →
  Message.ChallengeID dmsg = uuid env →
  let h1 := (handleChallenge h from msg env).1 in
  handleDeclineChallenge h1 (Message.TargetUserID msg) dmsg
  = (h, [Send from (msg_challenge_declined (uuid env))])
  ∧ (∀ other, other ≠ Message.TargetUserID msg →
       handleDeclineChallenge h1 other dmsg = (h1, [])).
Proof.
  intros Hlive Hfree Hnew Hfresh Hid h1. subst h1.
  unfold handleChallenge. rewrite decide_True by exact Hlive. rewrite Hfree.
  rewrite decide_False
    by (intros (cid & c & Hc & Hsame); exact (Hnew cid c Hc Hsame)).
  cbv zeta. simpl fst. unfold handleDeclineChallenge. simpl. rewrite Hid.
  rewrite lookup_insert_eq. simpl. split.
  - rewrite decide_True by reflexivity.
    rewrite delete_insert_id by exact Hfresh. destruct h; reflexivity.
  - intros other Hne. rewrite decide_False by congruence. reflexivity.
Qed.

Lemma challenge_then_decline_witness :
  handleDeclineChallenge
    (handleChallenge (hub challenged) "B" (challengeMsg "A") (mkEnv "c2" 11)).1
    "A" (acceptMsg "c2")
  = (hub challenged, [Send "B" (msg_challenge_declined "c2")]).
Proof.
  destruct (challenge_then_decline (hub challenged) "B" (challengeMsg "A")
              (acceptMsg "c2") (mkEnv "c2" 11)) as [Hback _].
  - apply (bool_decide_unpack _). vm_compute. exact I.
  - reflexivity.
  - intros cid c Hc [Hf Ht].
    assert (Hall : map_Forall (λ _ d, Challenge.FromUser d ≠ "B")
                     (challenges (hub challenged)))
      by (apply (bool_decide_unpack _); vm_compute; exact I).
    exact (Hall cid c Hc Hf).
  - reflexivity.
  - reflexivity.
  - exact Hback.
Defined.

(** X18.  Once a challenge has been accepted in a well-formed hub, its
    two users are marked as in a game: any later challenge aimed at either
    of them, as long as that user is live, is refused with "User is already
    in a game" and changes nothing. *)
Theorem accepted_players_cannot_be_challenged
    (h : Hub) (user : string) (msg : Message.t) (env : Env) (c : Challenge.t)
    (sender : string) (cmsg : Message.t) (cenv : Env) :
  wfHub h →
  challenges h !! Message.ChallengeID msg = Some c → Challenge.ToUser c = user →
  Message.TargetUserID cmsg = Challenge.FromUser c
  ∨ Message.TargetUserID cmsg = Challenge.ToUser c →
  Message.TargetUserID cmsg ∈ users h →
  let h1 := (handleAcceptChallenge h user msg env).1 in
  handleChallenge h1 sender cmsg cenv
  = (h1, [Send sender (msg_error "User is already in a game")]).
Proof.
  intros (Hlive & _) Hc Hto Htarget Hin h1. subst h1.
  unfold handleAcceptChallenge. rewrite Hc. rewrite decide_True by exact Hto.
  cbv zeta. simpl fst. unfold handleChallenge. simpl users.
  rewrite decide_True by exact Hin.
  assert (Hflag : User.InGame
            (deref (mkHub (alter (User.set_InGame true (uuid env)) (Challenge.ToUser c)
                             (alter (User.set_InGame true (uuid env))
                                (Challenge.FromUser c) (objs h)))
                      (users h) (delete (Message.ChallengeID msg) (challenges h))
                      (<[uuid env := newGame c env]> (games h)))
               (Message.TargetUserID cmsg)) = true).
  { unfold deref. simpl. destruct (Hlive _ Hin) as [u Hu].
    destruct (decide (Challenge.ToUser c = Message.TargetUserID cmsg)) as [Heq|Hne].
    - rewrite Heq, lookup_alter_eq.
      destruct (decide (Challenge.FromUser c = Message.TargetUserID cmsg)) as [Heq'|Hne'].
      + rewrite Heq', lookup_alter_eq, Hu. reflexivity.
      + rewrite lookup_alter_ne by exact Hne'. rewrite Hu. reflexivity.
    - rewrite lookup_alter_ne by exact Hne.
      destruct Htarget as [Ht|Ht]; [|congruence].
      rewrite <- Ht, lookup_alter_eq, Hu. reflexivity. }
  unfold newGame in Hflag. rewrite Hflag. reflexivity.
Qed.

Lemma accepted_players_cannot_be_challenged_witness :
  handleChallenge
    (handleAcceptChallenge (hub challenged) "B" (acceptMsg "c1") (mkEnv "g1" 20)).1
    "B" (challengeMsg "A") (mkEnv "c2" 30)
  = ((handleAcceptChallenge (hub challenged) "B" (acceptMsg "c1") (mkEnv "g1" 20)).1,
     [Send "B" (msg_error "User is already in a game")]).
Proof.
  apply (accepted_players_cannot_be_challenged (hub challenged) "B" (acceptMsg "c1")
           (mkEnv "g1" 20) (Challenge.mk "c1" "A" "B" 10)).
  - apply run_wfHub; [apply newHub_wfHub|].
    apply (bool_decide_unpack _). vm_compute. exact I.
  - reflexivity.
  - reflexivity.
  - left. reflexivity.
  - apply (bool_decide_unpack _). vm_compute. exact I.
Defined.

(** ** What a resolved round tells the players *)

(** X19.  The messages of [resolveRound] report the stored state.  Both
    players are first sent the same [round_result], with the round number,
    both bids, the tag, and the positions and balances the match now has.
    If the round ends the match, both are then sent [game_end] with the
    stored winner and the reason of the win check, the user list is
    broadcast, both players' [InGame] and [GameID] are cleared, the end
    time is the current time and one removal goroutine with a delay of ten
    seconds is started.  Otherwise both are sent a [waiting_for_bids]
    snapshot of the match as stored, with the next round number, no user
    object is written and nothing is started. *)
Theorem resolveRound_effects
    (h : Hub) (gp : string) (game : Game.t) (tnow b1 b2 : Z) :
  Game.Player1Bid game = Some b1 → Game.Player2Bid game = Some b2 →
  let r := resolveRound h gp game tnow in
  let g' := resolved b1 b2 tnow game in
  let verdict := checkWinCondition (playRound b1 b2 game) in
  let result :=
    msg_round_result (Game.ID game) (Game.CurrentRound game) b1 b2
      (Game.Player1Pos g') (Game.Player2Pos g')
      (Game.Player1Balance g') (Game.Player2Balance g') (roundTag b1 b2) in
  games r.1 !! gp = Some g'
  ∧ (verdict.1 > 0 →
       sent r.2 = [ (Game.Player1 game, result); (Game.Player2 game, result);
                    (Game.Player1 game, msg_game_end (Game.ID game) verdict.1 verdict.2);
                    (Game.Player2 game, msg_game_end (Game.ID game) verdict.1 verdict.2) ]
                  ++ sent (broadcastUserList r.1)
       ∧ Game.GameOver g' = true ∧ Game.Winner g' = verdict.1 ∧ Game.EndTime g' = tnow
       ∧ (∀ p, p = Game.Player1 game ∨ p = Game.Player2 game →
               User.InGame (deref r.1 p) = false ∧ User.GameID (deref r.1 p) = "")
       ∧ spawned r.2 = [SleepThenDelete (10 * time_Second) (Game.ID game)])
  ∧ (verdict.1 ≤ 0 →
       sent r.2 = [ (Game.Player1 game, result); (Game.Player2 game, result);
                    (Game.Player1 game, msg_waiting_for_bids g');
                    (Game.Player2 game, msg_waiting_for_bids g') ]
       ∧ Game.CurrentRound g' = int_inc (Game.CurrentRound game)
       ∧ objs r.1 = objs h
       ∧ spawned r.2 = []).
Proof.
  intros H1 H2 r g' verdict result. subst r g' verdict result.
  destruct (resolveRound_games h gp game tnow b1 b2 H1 H2) as (Hg & _).
  split; [rewrite Hg; apply lookup_insert_eq|].
  unfold resolveRound, resolved, playRound, roundTag. rewrite H1, H2.
  destruct (b1 >? b2); [|destruct (b2 >? b1)];
    (destruct (checkWinCondition _) as [winner reason] eqn:Hv; simpl fst; simpl snd;
     destruct (Z.gtb_spec winner 0) as [Hpos|Hneg];
     (split; [intros Hw|intros Hw]; try lia));
    try (simpl; split; [reflexivity|]; split; [reflexivity|]; split; [reflexivity|];
         reflexivity);
    (split; [simpl; rewrite !sent_app; simpl; rewrite app_nil_r; reflexivity|];
     split; [reflexivity|]; split; [reflexivity|]; split; [reflexivity|];
     split; [intros p Hp; apply alter_clear_deref; simpl; tauto|];
     simpl; rewrite !spawned_app, spawned_broadcast; reflexivity).
Qed.

Lemma resolveRound_effects_witness :
  spawned (resolveRound newHub "g1" lastStepGame 9).2
  = [SleepThenDelete (10 * time_Second) "g1"].
Proof.
  destruct (resolveRound_effects newHub "g1" lastStepGame 9 5 3 eq_refl eq_refl)
    as (_ & Hend & _).
  destruct Hend as (_ & _ & _ & _ & _ & Hs).
  - vm_compute. reflexivity.
  - exact Hs.
Defined.

(** ** A challenge is used at most once *)



(** ** The winner field *)

Lemma checkWinCondition_winner (g : Game.t) :
  ((checkWinCondition g).1 >? 0) = true →
  (checkWinCondition g).1 = 1 ∨ (checkWinCondition g).1 = 2 ∨ (checkWinCondition g).1 = 3.
Proof.
  unfold checkWinCondition.
  repeat match goal with
         | |- context [if ?b then _ else _] => destruct b; simpl
         end; intros Hw; try discriminate Hw; tauto.
Qed.

Lemma resolved_winnerOK (b1 b2 tnow : Z) (g : Game.t) :
  winnerOK g → winnerOK (resolved b1 b2 tnow g).
Proof.
  unfold resolved, winnerOK. intros Hg.
  destruct ((checkWinCondition (playRound b1 b2 g)).1 >? 0) eqn:Hw; simpl.
  - apply checkWinCondition_winner, Hw.
  - exact Hg.
Qed.

Lemma handleClientMessage_winnerOK
    (h : Hub) (user : string) (msg : Message.t) (env : Env) :
  map_Forall (λ _ g, winnerOK g) (games h) →
  map_Forall (λ _ g, winnerOK g) (games (handleClientMessage h user msg env).1).
Proof.
  intros Hh gid g' Hg'.
  assert (Hstore : ∀ u b g, winnerOK g → winnerOK (storeBid u b g))
    by (intros u b g; unfold storeBid, winnerOK; case_decide; simpl; tauto).
  revert Hg'. unfold handleClientMessage.
  repeat match goal with |- context [String.eqb ?a ?b] => destruct (String.eqb a b) end;
    try (intros Hg'; exact (Hh gid g' Hg')).
  - unfold handleChallenge. case_decide; [|intros Hg'; exact (Hh gid g' Hg')].
    destruct (User.InGame _); [intros Hg'; exact (Hh gid g' Hg')|].
    case_decide; intros Hg'; exact (Hh gid g' Hg').
  - unfold handleAcceptChallenge.
    destruct (challenges h !! Message.ChallengeID msg);
      [|intros Hg'; exact (Hh gid g' Hg')].
    case_decide; [|intros Hg'; exact (Hh gid g' Hg')]. simpl. intros Hg'.
    apply lookup_insert_Some in Hg' as [[_ <-]|[_ Hg']]; [reflexivity|exact (Hh gid g' Hg')].
  - unfold handleDeclineChallenge.
    destruct (challenges h !! Message.ChallengeID msg);
      [|intros Hg'; exact (Hh gid g' Hg')].
    case_decide; intros Hg'; exact (Hh gid g' Hg').
  - destruct (games h !! Message.GameID msg) as [game|] eqn:Hg;
      [|rewrite (handleSubmitBid_unknown _ _ _ _ Hg); intros Hg'; exact (Hh gid g' Hg')].
    destruct (decide (involves user game)) as [Hin|Hout];
      [|rewrite (handleSubmitBid_stranger _ _ _ _ _ Hg Hout);
        intros Hg'; exact (Hh gid g' Hg')].
    destruct (decide (0 ≤ Message.Bid msg ≤ balanceOf user game)) as [Hok|Hbad];
      [|rewrite (handleSubmitBid_out_of_range _ _ _ _ _ Hg Hin Hbad);
        intros Hg'; exact (Hh gid g' Hg')].
    rewrite (handleSubmitBid_in_range _ _ _ _ _ Hg Hin Hok). cbv zeta.
    pose proof (Hstore user (Message.Bid msg) game (Hh _ _ Hg)) as Hst.
    destruct (Game.Player1Bid (storeBid user (Message.Bid msg) game)) as [b1|] eqn:E1;
      [destruct (Game.Player2Bid (storeBid user (Message.Bid msg) game)) as [b2|] eqn:E2|].
    + destruct (resolveRound_games h (Message.GameID msg)
                  (Game.set_Status "RESOLVING" (storeBid user (Message.Bid msg) game))
                  (now env) b1 b2 E1 E2) as (Hgs & _).
      rewrite Hgs. intros Hg'.
      apply lookup_insert_Some in Hg' as [[_ <-]|[_ Hg']]; [|exact (Hh gid g' Hg')].
      apply resolved_winnerOK. exact Hst.
    + simpl. intros Hg'.
      apply lookup_insert_Some in Hg' as [[_ <-]|[_ Hg']];
        [exact Hst|exact (Hh gid g' Hg')].
    + simpl. intros Hg'.
      apply lookup_insert_Some in Hg' as [[_ <-]|[_ Hg']];
        [exact Hst|exact (Hh gid g' Hg')].
  - unfold handleRematch.
    destruct (games h !! Message.GameID msg); [|intros Hg'; exact (Hh gid g' Hg')].
    repeat case_decide; intros Hg'; exact (Hh gid g' Hg').
  - unfold handleResign.
    destruct (games h !! Message.GameID msg) as [game|];
      [|intros Hg'; exact (Hh gid g' Hg')].
    destruct (Game.GameOver game); [intros Hg'; exact (Hh gid g' Hg')|].
    repeat case_decide; try (intros Hg'; exact (Hh gid g' Hg')); simpl; intros Hg';
      (apply lookup_insert_Some in Hg' as [[_ <-]|[_ Hg']]; [|exact (Hh gid g' Hg')]);
      unfold winnerOK; simpl; tauto.
Qed.

(** X21.  In every reachable state the winner field tells whether a
    match is over: it is 0 (none) exactly for the matches that are not
    over, and 1, 2 or 3 (draw) for those that are. *)
Theorem reachable_winner (s : Sys) (gid : string) (g : Game.t) :
  reachable s → games (hub s) !! gid = Some g →
  (Game.GameOver g = false ↔ Game.Winner g = 0)
  ∧ (Game.GameOver g = true ↔
     Game.Winner g = 1 ∨ Game.Winner g = 2 ∨ Game.Winner g = 3).
Proof.
  intros Hs Hg.
  assert (Hall : map_Forall (λ _ g, winnerOK g) (games (hub s))).
  { clear gid g Hg. induction Hs as [|s s' Hs IH Hstep].
    - intros gid g Hg. simpl in Hg. rewrite lookup_empty in Hg. discriminate.
    - destruct Hstep as [s ev Hen|s gr before after Hp]; simpl.
      + destruct ev as [userID username|user|user msg env|tnow]; simpl.
        * exact IH.
        * case_decide; [|exact IH]. intros gid g Hg. simpl in Hg.
          apply map_lookup_filter_Some in Hg as [Hg _]. exact (IH gid g Hg).
        * apply handleClientMessage_winnerOK, IH.
        * exact IH.
      + destruct gr. intros gid g Hg. simpl in Hg.
        apply lookup_delete_Some in Hg as [_ Hg]. exact (IH gid g Hg). }
  specialize (Hall gid g Hg). unfold winnerOK in Hall.
  destruct (Game.GameOver g); split; split; intros H;
    first [discriminate | reflexivity | exact Hall | lia
          | destruct Hall as [E|[E|E]]; rewrite E in H;
            first [discriminate | destruct H as [H|[H|H]]; discriminate] ].
Qed.

Lemma reachable_winner_witness :
  ∃ g : Game.t,
    games (hub (run newSys finishedTrace)) !! "g1" = Some g
    ∧ (Game.GameOver g = true ↔
       Game.Winner g = 1 ∨ Game.Winner g = 2 ∨ Game.Winner g = 3).
Proof.
  eexists. split; [vm_compute; reflexivity|].
  eapply (reachable_winner (run newSys finishedTrace) "g1").
  - apply run_reachable; [apply reach_init|].
    apply (bool_decide_unpack _). vm_compute. exact I.
  - vm_compute. reflexivity.
Defined.
